(** * Design-layer compositing engine of genart-dev/core

    A shallow embedding of
    - the layer data model (DesignLayer, LayerTransform, property bags),
    - the Canvas 2D compositor ([compositeDesignLayers], [compositeLayer]),
    - the mutable layer stack ([createLayerStack] and its accessor methods),
    followed by the properties of these functions.

    Conventions of the embedding.
    - A JavaScript [number] is a rational ([Q]); NaN and the infinities are
      not represented.  Array indices and counts are integers ([Z]) where
      the source computes with them and [nat] where it indexes.
    - A JavaScript object used as a string-keyed bag is a [gmap string _].
    - The drawing context is the record of the fields the compositor
      writes ([globalAlpha], [globalCompositeOperation], the current
      transform), a stack for [save]/[restore], and the log of the calls
      made on it.  A plugin's [render] function is external: a call to it
      is logged together with the drawing state it is made under.
      Assignments to [globalAlpha] store the value as given; layer
      opacities are expected in the range 0-1.  The sketch canvas and the
      render resources are passed through unchanged and are left out.
    - [Math.random] is an oracle: its n-th call returns [Math_random n]. *)

From Stdlib Require Import QArith Qround Qreals Reals Lra Ascii HexadecimalString.
From stdpp Require Import gmap strings list.

Local Open Scope Q_scope.

(** ** Layer model *)

Inductive LayerPropertyValue : Type :=
| PString (s : string)
| PNumber (q : Q)
| PBoolean (b : bool)
| PStructured (fields : list (string * Q))
| PNull.

Abbreviation LayerProperties := (gmap string LayerPropertyValue).

(** [BlendMode] is a union of string literals in the source. *)
Abbreviation BlendMode := string.

Module LayerTransform.
Record t : Type := mk {
  x : Q; y : Q; width : Q; height : Q; rotation : Q;
  scaleX : Q; scaleY : Q; anchorX : Q; anchorY : Q }.
End LayerTransform.
Abbreviation LayerTransform := LayerTransform.t.

Module LayerBounds.
Record t : Type := mk {
  x : Q; y : Q; width : Q; height : Q; rotation : Q;
  scaleX : Q; scaleY : Q }.
End LayerBounds.
Abbreviation LayerBounds := LayerBounds.t.

#[warnings="-register-all"]
Inductive DesignLayer : Type := mkDesignLayer {
  id : string;
  type : string;
  name : string;
  visible : bool;
  locked : bool;
  opacity : Q;
  blendMode : BlendMode;
  transform : LayerTransform;
  properties : LayerProperties;
  children : option (list DesignLayer) }.

Inductive LayerCategory : Type :=
| cat_text | cat_shape | cat_image | cat_filter
| cat_adjustment | cat_guide | cat_draw | cat_group.

(** The part of a [LayerTypeDefinition] the compositor reads; its [render]
    function is identified by the definition itself in the call log. *)
Record LayerTypeDefinition : Type := mkLayerType {
  typeId : string;
  category : LayerCategory }.

(** [PluginRegistry.resolveLayerType], as seen by the compositor. *)
Abbreviation PluginRegistry := (string -> option LayerTypeDefinition).

(** ** Drawing context *)

Inductive TransformOp : Type :=
| Translate (tx ty : Q)
| RotateDeg (degrees : Q)     (* ctx.rotate(degrees * Math.PI / 180) *)
| Scale (sx sy : Q).

Record DrawState : Type := mkDrawState {
  globalAlpha : Q;
  globalCompositeOperation : string;
  currentTransform : list TransformOp }.

Inductive CanvasCall : Type :=
| CallDrawImage (dx dy : Q)
| CallSave
| CallRestore
| SetGlobalAlpha (a : Q)
| SetGlobalCompositeOperation (op : string)
| CallTranslate (tx ty : Q)
| CallRotate (degrees : Q)
| CallScale (sx sy : Q)
| CallRender (layerType : LayerTypeDefinition) (props : LayerProperties)
             (bounds : LayerBounds) (seen : DrawState).

Record Ctx : Type := mkCtx {
  state : DrawState;
  saved : list DrawState;
  calls : list CanvasCall }.

Definition log (c : CanvasCall) (ctx : Ctx) : Ctx :=
  mkCtx (state ctx) (saved ctx) (calls ctx ++ [c]).

Definition ctx_save (ctx : Ctx) : Ctx :=
  log CallSave (mkCtx (state ctx) (state ctx :: saved ctx) (calls ctx)).

Definition ctx_restore (ctx : Ctx) : Ctx :=
  log CallRestore
    match saved ctx with
    | [] => ctx
    | s :: rest => mkCtx s rest (calls ctx)
    end.

Definition set_globalAlpha (a : Q) (ctx : Ctx) : Ctx :=
  log (SetGlobalAlpha a)
    (mkCtx (mkDrawState a (globalCompositeOperation (state ctx))
                        (currentTransform (state ctx)))
           (saved ctx) (calls ctx)).

Definition set_globalCompositeOperation (op : string) (ctx : Ctx) : Ctx :=
  log (SetGlobalCompositeOperation op)
    (mkCtx (mkDrawState (globalAlpha (state ctx)) op
                        (currentTransform (state ctx)))
           (saved ctx) (calls ctx)).

Definition push_transform (t : TransformOp) (ctx : Ctx) : Ctx :=
  mkCtx (mkDrawState (globalAlpha (state ctx))
                     (globalCompositeOperation (state ctx))
                     (currentTransform (state ctx) ++ [t]))
        (saved ctx) (calls ctx).

Definition ctx_translate (tx ty : Q) (ctx : Ctx) : Ctx :=
  log (CallTranslate tx ty) (push_transform (Translate tx ty) ctx).

Definition ctx_rotate (degrees : Q) (ctx : Ctx) : Ctx :=
  log (CallRotate degrees) (push_transform (RotateDeg degrees) ctx).

Definition ctx_scale (sx sy : Q) (ctx : Ctx) : Ctx :=
  log (CallScale sx sy) (push_transform (Scale sx sy) ctx).

Definition ctx_drawImage (dx dy : Q) (ctx : Ctx) : Ctx :=
  log (CallDrawImage dx dy) ctx.

Definition call_render (lt : LayerTypeDefinition) (props : LayerProperties)
    (bounds : LayerBounds) (ctx : Ctx) : Ctx :=
  log (CallRender lt props bounds (state ctx)) ctx.

(** ** Compositor *)

Definition toCompositeOp (blendMode : BlendMode) : string :=
  if String.eqb blendMode "normal" then "source-over" else blendMode.

Definition is_guide (layerType : option LayerTypeDefinition) : bool :=
  match layerType with
  | Some lt => match category lt with cat_guide => true | _ => false end
  | None => false
  end.

(** [x !== c] on numbers. *)
Definition num_neq (a b : Q) : bool := negb (Qeq_bool a b).

Definition anchor_x (t : LayerTransform) : Q :=
  LayerTransform.x t + LayerTransform.width t * LayerTransform.anchorX t.
Definition anchor_y (t : LayerTransform) : Q :=
  LayerTransform.y t + LayerTransform.height t * LayerTransform.anchorY t.

Definition bounds_of (t : LayerTransform) : LayerBounds :=
  LayerBounds.mk (LayerTransform.x t) (LayerTransform.y t)
    (LayerTransform.width t) (LayerTransform.height t)
    (LayerTransform.rotation t)
    (LayerTransform.scaleX t) (LayerTransform.scaleY t).

(** Lines 79-118 of [compositeLayer]: the leaf case, once the layer type
    is resolved. *)
Definition renderLeaf (layerType : LayerTypeDefinition) (layer : DesignLayer)
    (ctx : Ctx) : Ctx :=
  let ctx := ctx_save ctx in
  let ctx := set_globalAlpha (opacity layer) ctx in
  let ctx := set_globalCompositeOperation (toCompositeOp (blendMode layer)) ctx in
  let t := transform layer in
  let ax := anchor_x t in
  let ay := anchor_y t in
  let ctx := ctx_translate ax ay ctx in
  let ctx := if num_neq (LayerTransform.rotation t) 0
             then ctx_rotate (LayerTransform.rotation t) ctx else ctx in
  let ctx := if num_neq (LayerTransform.scaleX t) 1
                || num_neq (LayerTransform.scaleY t) 1
             then ctx_scale (LayerTransform.scaleX t) (LayerTransform.scaleY t) ctx
             else ctx in
  let ctx := ctx_translate (- ax) (- ay) ctx in
  let ctx := call_render layerType (properties layer) (bounds_of t) ctx in
  ctx_restore ctx.

(** Lines 64-66: the scope a group opens for its children. *)
Definition enterGroup (layer : DesignLayer) (ctx : Ctx) : Ctx :=
  let ctx := ctx_save ctx in
  let ctx := set_globalAlpha (globalAlpha (state ctx) * opacity layer) ctx in
  set_globalCompositeOperation (toCompositeOp (blendMode layer)) ctx.

Fixpoint compositeLayer (registry : PluginRegistry) (includeGuides : bool)
    (layer : DesignLayer) (ctx : Ctx) {struct layer} : Ctx :=
  match layer with
  | mkDesignLayer _ ty _ vis _ _ _ _ _ kids =>
    if negb vis then ctx else
    let layerType := registry ty in
    if negb includeGuides && is_guide layerType then ctx else
    match kids with
    | Some ((_ :: _) as cs) =>
        let ctx := enterGroup layer ctx in
        let ctx :=
          fold_left (fun acc child =>
                       compositeLayer registry includeGuides child acc) cs ctx in
        ctx_restore ctx
    | _ =>
        match layerType with
        | None => ctx
        | Some lt => renderLeaf lt layer ctx
        end
    end
  end.

Definition compositeLayers (registry : PluginRegistry) (includeGuides : bool)
    (layers : list DesignLayer) (ctx : Ctx) : Ctx :=
  fold_left (fun acc layer => compositeLayer registry includeGuides layer acc)
            layers ctx.

(** [options?.includeGuides ?? false] *)
Definition includeGuides_of (options : option (option bool)) : bool :=
  match options with
  | Some (Some b) => b
  | _ => false
  end.

Definition compositeDesignLayers (layers : list DesignLayer)
    (registry : PluginRegistry) (output : Ctx)
    (options : option (option bool)) : Ctx :=
  let includeGuides := includeGuides_of options in
  let output := ctx_drawImage 0 0 output in
  compositeLayers registry includeGuides layers output.

Definition fresh_ctx : Ctx :=
  mkCtx (mkDrawState 1 "source-over" []) [] [].

(** ** JavaScript array primitives used by the layer stack *)

Section ArrayPrimitives.
Context {A : Type}.

(** [Array.prototype.findIndex], scanning from index [i]; -1 when no
    element satisfies the predicate. *)
Fixpoint findIndex_from (p : A -> bool) (i : Z) (l : list A) : Z :=
  match l with
  | [] => (-1)%Z
  | a :: rest => if p a then i else findIndex_from p (i + 1)%Z rest
  end.

Definition Array_findIndex (p : A -> bool) (l : list A) : Z :=
  findIndex_from p 0%Z l.

(** [Array.prototype.find] *)
Fixpoint Array_find (p : A -> bool) (l : list A) : option A :=
  match l with
  | [] => None
  | a :: rest => if p a then Some a else Array_find p rest
  end.

(** [Array.prototype.splice(start, deleteCount, ...items)] on integer
    arguments: the removed elements and the array afterwards. *)
Definition splice_start (start : Z) (len : nat) : nat :=
  if (start <? 0)%Z then Z.to_nat (Z.max (Z.of_nat len + start) 0)
  else Z.to_nat (Z.min start (Z.of_nat len)).

Definition Array_splice (start deleteCount : Z) (items : list A)
    (l : list A) : list A * list A :=
  let s := splice_start start (length l) in
  let d := Z.to_nat (Z.min (Z.max deleteCount 0) (Z.of_nat (length l - s))) in
  (take d (drop s l), take s l ++ items ++ drop (s + d) l).
End ArrayPrimitives.

(** ** Layer stack *)

Inductive DesignChangeType : Type :=
| layer_added | layer_removed | layer_updated | layer_reordered
| selection_changed | composite_changed.

(** A call either returns a value or throws an [Error] with a message. *)
Inductive Outcome (A : Type) : Type :=
| Returned (a : A)
| Thrown (message : string).
Arguments Returned {A} a.
Arguments Thrown {A} message.

(** What a layer stack closes over: its [layers] array, the notifications
    delivered to [onChange] so far, and how many times [Math.random] has
    been called. *)
Record StackState : Type := mkStack {
  layers : list DesignLayer;
  notified : list DesignChangeType;
  random_calls : nat }.

Definition M (A : Type) : Type := StackState -> Outcome A * StackState.

Definition ret {A} (a : A) : M A := fun st => (Returned a, st).
Definition throw {A} (message : string) : M A := fun st => (Thrown message, st).
Definition bind {A B} (m : M A) (k : A -> M B) : M B :=
  fun st =>
    match m st with
    | (Returned a, st') => k a st'
    | (Thrown e, st') => (Thrown e, st')
    end.

Declare Scope stack_scope.
Delimit Scope stack_scope with stack.
Notation "x <~ m ;; k" := (bind m (fun x => k))
  (at level 100, m at next level, right associativity) : stack_scope.
Notation "m ;;; k" := (bind m (fun _ => k))
  (at level 100, right associativity) : stack_scope.

Definition get_layers : M (list DesignLayer) := fun st => (Returned (layers st), st).
Definition put_layers (ls : list DesignLayer) : M unit :=
  fun st => (Returned tt, mkStack ls (notified st) (random_calls st)).
Definition onChange (changeType : DesignChangeType) : M unit :=
  fun st => (Returned tt,
             mkStack (layers st) (notified st ++ [changeType]) (random_calls st)).

Fixpoint toMutable (layer : DesignLayer) : DesignLayer :=
  match layer with
  | mkDesignLayer i ty nm vis lk op bm tr props kids =>
      mkDesignLayer i ty nm vis lk op bm tr props
        match kids with
        | Some cs => Some (map toMutable cs)
        | None => None
        end
  end.

(** State-passing [Array.prototype.map]: the callback runs on the elements
    from left to right. *)
Section MapThreaded.
Context {A B S : Type} (f : A -> S -> B * S).
Fixpoint map_threaded (l : list A) (s : S) : list B * S :=
  match l with
  | [] => ([], s)
  | a :: rest =>
      let '(b, s1) := f a s in
      let '(bs, s2) := map_threaded rest s1 in
      (b :: bs, s2)
  end.
End MapThreaded.

Definition double_quote : string := String "034"%char EmptyString.

Definition not_found_message (layerId : string) : string :=
  ("Layer " ++ double_quote ++ layerId ++ double_quote ++ " not found")%string.

(** A [Partial<LayerTransform>]: each field present ([Some]) or absent. *)
Module PartialTransform.
Record t : Type := mk {
  x : option Q; y : option Q; width : option Q; height : option Q;
  rotation : option Q; scaleX : option Q; scaleY : option Q;
  anchorX : option Q; anchorY : option Q }.
End PartialTransform.
Abbreviation PartialTransform := PartialTransform.t.

(** [{ ...t, ...p }] *)
Definition merge_transform (t : LayerTransform) (p : PartialTransform)
    : LayerTransform :=
  LayerTransform.mk
    (default (LayerTransform.x t) (PartialTransform.x p))
    (default (LayerTransform.y t) (PartialTransform.y p))
    (default (LayerTransform.width t) (PartialTransform.width p))
    (default (LayerTransform.height t) (PartialTransform.height p))
    (default (LayerTransform.rotation t) (PartialTransform.rotation p))
    (default (LayerTransform.scaleX t) (PartialTransform.scaleX p))
    (default (LayerTransform.scaleY t) (PartialTransform.scaleY p))
    (default (LayerTransform.anchorX t) (PartialTransform.anchorX p))
    (default (LayerTransform.anchorY t) (PartialTransform.anchorY p)).

Section LayerStack.
Variable Math_random : nat -> Q.

(** [x | 0]: truncation to an integer, then wrap-around to 32 signed bits. *)
Definition to_int32 (q : Q) : Z :=
  let t := Z.quot (Qnum q) (Z.pos (Qden q)) in
  let m := (t mod 2 ^ 32)%Z in
  if (2 ^ 31 <=? m)%Z then (m - 2 ^ 32)%Z else m.

(** [Number.prototype.toString(16)] on an integer. *)
Definition toString16 (v : Z) : string :=
  HexadecimalString.NilZero.string_of_int (Z.to_hex_int v).

(** The replacement callback of [uuid], at the n-th [Math.random] call. *)
Definition uuid_char (c : ascii) (n : nat) : string :=
  let r := to_int32 (Math_random n * 16) in
  let v := if Ascii.eqb c "x" then r else Z.lor (Z.land r 3) 8 in
  toString16 v.

(** [template.replace(/[xy]/g, callback)] *)
Fixpoint replace_xy (template : string) (n : nat) : string * nat :=
  match template with
  | EmptyString => (EmptyString, n)
  | String c rest =>
      if Ascii.eqb c "x" || Ascii.eqb c "y" then
        let '(out, n') := replace_xy rest (S n) in
        ((uuid_char c n ++ out)%string, n')
      else
        let '(out, n') := replace_xy rest n in
        (String c out, n')
  end.

Definition uuid (n : nat) : string * nat :=
  replace_xy "xxxxxxxx-xxxx-4xxx-yxxx-xxxxxxxxxxxx" n.

Fixpoint deepCloneLayer (layer : DesignLayer) (n : nat) {struct layer}
    : DesignLayer * nat :=
  match layer with
  | mkDesignLayer _ ty nm vis lk op bm tr props kids =>
      let '(newId, n1) := uuid n in
      let '(kids', n2) :=
        match kids with
        | Some cs =>
            let '(cs', n') := map_threaded deepCloneLayer cs n1 in
            (Some cs', n')
        | None => (None, n1)
        end in
      (mkDesignLayer newId ty (nm ++ " copy")%string vis lk op bm tr props kids',
       n2)
  end.

Definition createLayerStack (initialLayers : list DesignLayer) : StackState :=
  mkStack (map toMutable initialLayers) [] 0.

Definition has_id (layerId : string) (l : DesignLayer) : bool :=
  String.eqb (id l) layerId.

Definition findIndex (layerId : string) : M Z :=
  (ls <~ get_layers ;;
   let idx := Array_findIndex (has_id layerId) ls in
   if (idx =? -1)%Z then throw (not_found_message layerId) else ret idx)%stack.

(** [layers[idx]!]; reading a field of [undefined] is a [TypeError]. *)
Definition layer_at (idx : Z) : M DesignLayer :=
  (ls <~ get_layers ;;
   match (if (idx <? 0)%Z then None else ls !! Z.to_nat idx) with
   | Some l => ret l
   | None => throw "TypeError: Cannot read properties of undefined"
   end)%stack.

(** Assignment to a field of [layers[idx]]. *)
Definition store_layer (idx : Z) (l : DesignLayer) : M unit :=
  (ls <~ get_layers ;; put_layers (<[Z.to_nat idx := l]> ls))%stack.

Definition splice (start deleteCount : Z) (items : list DesignLayer)
    : M (list DesignLayer) :=
  (ls <~ get_layers ;;
   let '(removed, ls') := Array_splice start deleteCount items ls in
   put_layers ls' ;;; ret removed)%stack.

Definition getAll : M (list DesignLayer) := get_layers.

Definition get (layerId : string) : M (option DesignLayer) :=
  (ls <~ get_layers ;; ret (Array_find (has_id layerId) ls))%stack.

Definition add (layer : DesignLayer) (index : option Z) : M unit :=
  (let mutable := toMutable layer in
   ls <~ get_layers ;;
   (match index with
    | Some i =>
        if (0 <=? i)%Z && (i <=? Z.of_nat (length ls))%Z
        then splice i 0 [mutable] ;;; ret tt
        else put_layers (ls ++ [mutable])
    | None => put_layers (ls ++ [mutable])
    end) ;;;
   onChange layer_added)%stack.

Definition remove (layerId : string) : M bool :=
  (ls <~ get_layers ;;
   let idx := Array_findIndex (has_id layerId) ls in
   if (idx =? -1)%Z then ret false else
   splice idx 1 [] ;;;
   onChange layer_removed ;;;
   ret true)%stack.

(** A [Partial<LayerProperties>]: a key may be present with the value
    [undefined] ([None]).  The loop copies the defined entries into the
    plain object [filtered] by assignment, [filtered[k] = v]; for the key
    "__proto__" that assignment runs the setter inherited from
    [Object.prototype] and creates no own property, so this one entry
    never reaches the spread. *)
Definition updateProperties (layerId : string)
    (partial : gmap string (option LayerPropertyValue)) : M unit :=
  (idx <~ findIndex layerId ;;
   layer <~ layer_at idx ;;
   let filtered : LayerProperties :=
     omap (fun v => v) (delete "__proto__" partial) in
   store_layer idx
     (mkDesignLayer (id layer) (type layer) (name layer) (visible layer)
        (locked layer) (opacity layer) (blendMode layer) (transform layer)
        (filtered ∪ properties layer) (children layer)) ;;;
   onChange layer_updated)%stack.

Definition updateTransform (layerId : string) (partial : PartialTransform)
    : M unit :=
  (idx <~ findIndex layerId ;;
   layer <~ layer_at idx ;;
   store_layer idx
     (mkDesignLayer (id layer) (type layer) (name layer) (visible layer)
        (locked layer) (opacity layer) (blendMode layer)
        (merge_transform (transform layer) partial)
        (properties layer) (children layer)) ;;;
   onChange layer_updated)%stack.

Definition updateBlend (layerId : string) (newBlendMode : option BlendMode)
    (newOpacity : option Q) : M unit :=
  (idx <~ findIndex layerId ;;
   layer <~ layer_at idx ;;
   store_layer idx
     (mkDesignLayer (id layer) (type layer) (name layer) (visible layer)
        (locked layer)
        (default (opacity layer) newOpacity)
        (default (blendMode layer) newBlendMode)
        (transform layer) (properties layer) (children layer)) ;;;
   onChange layer_updated)%stack.

Definition reorder (layerId : string) (newIndex : Z) : M unit :=
  (oldIndex <~ findIndex layerId ;;
   ls <~ get_layers ;;
   let clamped := Z.max 0 (Z.min newIndex (Z.of_nat (length ls) - 1)) in
   if (oldIndex =? clamped)%Z then ret tt else
   removed <~ splice oldIndex 1 [] ;;
   splice clamped 0 (take 1 removed) ;;;
   onChange layer_reordered)%stack.

(** The threaded counter of [deepCloneLayer] is the stack's
    [random_calls]. *)
Definition clone_layer (original : DesignLayer) : M DesignLayer :=
  fun st =>
    let '(clone, n) := deepCloneLayer original (random_calls st) in
    (Returned clone, mkStack (layers st) (notified st) n).

Definition duplicate (layerId : string) : M string :=
  (idx <~ findIndex layerId ;;
   original <~ layer_at idx ;;
   clone <~ clone_layer original ;;
   splice (idx + 1) 0 [clone] ;;;
   onChange layer_added ;;;
   ret (id clone))%stack.

Definition count : M nat :=
  (ls <~ get_layers ;; ret (length ls))%stack.
End LayerStack.

(** ** The transform a context has accumulated, as a matrix

    [currentTransform] keeps the calls symbolically; their meaning is the
    product of the matrices the Canvas 2D API assigns to them, each call
    multiplying the current matrix on the right.  A matrix
    [(a, b, c, d, e, f)] maps [(px, py)] to
    [(a*px + c*py + e, b*px + d*py + f)]. *)

Record Matrix : Type := mkMatrix {
  m_a : R; m_b : R; m_c : R; m_d : R; m_e : R; m_f : R }.

Definition mat_identity : Matrix := mkMatrix 1 0 0 1 0 0.

Definition mat_mul (m n : Matrix) : Matrix :=
  mkMatrix
    (m_a m * m_a n + m_c m * m_b n)
    (m_b m * m_a n + m_d m * m_b n)
    (m_a m * m_c n + m_c m * m_d n)
    (m_b m * m_c n + m_d m * m_d n)
    (m_a m * m_e n + m_c m * m_f n + m_e m)
    (m_b m * m_e n + m_d m * m_f n + m_f m).

Definition radians (degrees : Q) : R := (Q2R degrees * PI / 180)%R.

Definition op_matrix (op : TransformOp) : Matrix :=
  match op with
  | Translate tx ty => mkMatrix 1 0 0 1 (Q2R tx) (Q2R ty)
  | RotateDeg d =>
      mkMatrix (cos (radians d)) (sin (radians d))
               (- sin (radians d)) (cos (radians d)) 0 0
  | Scale sx sy => mkMatrix (Q2R sx) 0 0 (Q2R sy) 0 0
  end.

Definition matrix_of (ops : list TransformOp) : Matrix :=
  fold_left (fun m op => mat_mul m (op_matrix op)) ops mat_identity.

(** The drawing-context call that performs a transform. *)
Definition call_of (op : TransformOp) : CanvasCall :=
  match op with
  | Translate tx ty => CallTranslate tx ty
  | RotateDeg d => CallRotate d
  | Scale sx sy => CallScale sx sy
  end.

(** The transform calls a leaf makes, in order (lines 90-97). *)
Definition leaf_transform (t : LayerTransform) : list TransformOp :=
  [Translate (anchor_x t) (anchor_y t)]
  ++ (if num_neq (LayerTransform.rotation t) 0
      then [RotateDeg (LayerTransform.rotation t)] else [])
  ++ (if num_neq (LayerTransform.scaleX t) 1 || num_neq (LayerTransform.scaleY t) 1
      then [Scale (LayerTransform.scaleX t) (LayerTransform.scaleY t)] else [])
  ++ [Translate (- anchor_x t) (- anchor_y t)].

(** The same pipeline with no step skipped. *)
Definition full_transform (t : LayerTransform) : list TransformOp :=
  [Translate (anchor_x t) (anchor_y t);
   RotateDeg (LayerTransform.rotation t);
   Scale (LayerTransform.scaleX t) (LayerTransform.scaleY t);
   Translate (- anchor_x t) (- anchor_y t)].

(** The state a leaf's [render] call is made under. *)
Definition leaf_state (layer : DesignLayer) (ctx : Ctx) : DrawState :=
  mkDrawState (opacity layer) (toCompositeOp (blendMode layer))
    (currentTransform (state ctx) ++ leaf_transform (transform layer)).

(** Everything a leaf logs, in order. *)
Definition leaf_calls (lt : LayerTypeDefinition) (layer : DesignLayer)
    (ctx : Ctx) : list CanvasCall :=
  [CallSave; SetGlobalAlpha (opacity layer);
   SetGlobalCompositeOperation (toCompositeOp (blendMode layer))]
  ++ map call_of (leaf_transform (transform layer))
  ++ [CallRender lt (properties layer) (bounds_of (transform layer))
        (leaf_state layer ctx);
      CallRestore].

Definition is_leaf (layer : DesignLayer) : Prop :=
  children layer = None \/ children layer = Some [].

(** The layer tree with the children of every invisible layer dropped. *)
Fixpoint drop_hidden_children (layer : DesignLayer) : DesignLayer :=
  match layer with
  | mkDesignLayer i ty nm vis lk op bm tr props kids =>
      mkDesignLayer i ty nm vis lk op bm tr props
        (if vis then
           match kids with
           | Some cs => Some (map drop_hidden_children cs)
           | None => None
           end
         else None)
  end.

(** The nodes of a layer tree, parent before children, left to right. *)
Fixpoint subtree (layer : DesignLayer) : list DesignLayer :=
  layer ::
  match children layer with
  | Some cs => concat (map subtree cs)
  | None => []
  end.

Definition tree_ids (ls : list DesignLayer) : list string :=
  map id (concat (map subtree ls)).

Definition Forall_children (P : DesignLayer -> Prop)
    (kids : option (list DesignLayer)) : Prop :=
  match kids with
  | Some cs => Forall P cs
  | None => True
  end.

(** The results of [k] successive [uuid()] calls, the first of them made
    after [n] calls of [Math.random], and the number of [Math.random] calls
    made once they are done. *)
Fixpoint draw_uuids (Math_random : nat -> Q) (k n : nat) : list string * nat :=
  match k with
  | O => ([], n)
  | S k' =>
      let '(u, n1) := uuid Math_random n in
      let '(us, n2) := draw_uuids Math_random k' n1 in
      (u :: us, n2)
  end.

(** What a clone is, node by node: names suffixed, ids drawn in order. *)
Definition clone_correct (rnd : nat -> Q) (layer : DesignLayer) : Prop :=
  forall n,
    map name (subtree (fst (deepCloneLayer rnd layer n)))
    = map (fun l => (name l ++ " copy")%string) (subtree layer)
    /\ (map id (subtree (fst (deepCloneLayer rnd layer n))),
        snd (deepCloneLayer rnd layer n))
       = draw_uuids rnd (length (subtree layer)) n.

(** ** Observations on a call log *)

(** The opacity each [render] call was made under, in call order. *)
Definition render_alphas (cs : list CanvasCall) : list Q :=
  omap (fun c => match c with
                 | CallRender _ _ _ seen => Some (globalAlpha seen)
                 | _ => None
                 end) cs.

(** The layer types whose [render] was called, in call order. *)
Definition rendered_types (cs : list CanvasCall) : list string :=
  omap (fun c => match c with
                 | CallRender lt _ _ _ => Some (typeId lt)
                 | _ => None
                 end) cs.

Definition with_children (kids : option (list DesignLayer))
    (layer : DesignLayer) : DesignLayer :=
  mkDesignLayer (id layer) (type layer) (name layer) (visible layer)
    (locked layer) (opacity layer) (blendMode layer) (transform layer)
    (properties layer) kids.

(** ** Sample inputs *)

Definition sample_transform : LayerTransform :=
  LayerTransform.mk 10 20 100 100 0 1 1 (1 # 2) (1 # 2).

Definition turned_transform : LayerTransform :=
  LayerTransform.mk 10 20 100 50 45 2 1 (1 # 2) (1 # 2).

Definition sample_layer (i ty nm : string) (vis : bool) (op : Q)
    (bm : BlendMode) (kids : option (list DesignLayer)) : DesignLayer :=
  mkDesignLayer i ty nm vis false op bm sample_transform
    {[ "fill" := PString "#ff0000" ]} kids.

Definition sample_registry : PluginRegistry :=
  fun ty =>
    if String.eqb ty "shapes:rect" then Some (mkLayerType ty cat_shape)
    else if String.eqb ty "shapes:ellipse" then Some (mkLayerType ty cat_shape)
    else if String.eqb ty "guides:grid" then Some (mkLayerType ty cat_guide)
    else None.

Definition rect_layer : DesignLayer :=
  sample_layer "rect-1" "shapes:rect" "Rect" true (4 # 5) "multiply" None.

Definition ellipse_layer : DesignLayer :=
  sample_layer "ellipse-1" "shapes:ellipse" "Ellipse" true 1 "normal" None.

Definition turned_layer : DesignLayer :=
  mkDesignLayer "rect-2" "shapes:rect" "Turned" true false (1 # 2) "screen"
    turned_transform ∅ None.

(** A group at opacity 0.5 holding one leaf at opacity 1. *)
Definition half_group : DesignLayer :=
  sample_layer "group-1" "group" "Group" true (1 # 2) "normal"
    (Some [ellipse_layer]).

(** The same group, tagged with a type that resolves to a guide. *)
Definition guide_group : DesignLayer :=
  sample_layer "group-1" "guides:grid" "Group" true (1 # 2) "normal"
    (Some [ellipse_layer]).

Definition hidden_group : DesignLayer :=
  sample_layer "group-2" "group" "Hidden" false 1 "normal"
    (Some [ellipse_layer; rect_layer]).

Definition childless_array_layer : DesignLayer :=
  sample_layer "rect-3" "shapes:rect" "Empty" true (1 # 4) "normal" (Some []).

Definition sample_stack : StackState :=
  createLayerStack [half_group; rect_layer].

(** A random source that always returns 0. *)
Definition zero_random : nat -> Q := fun _ => 0.

Definition zero_uuid : string := "00000000-0000-4000-8000-000000000000".

(** A layer that already carries the id [zero_uuid]. *)
Definition zero_layer : DesignLayer :=
  sample_layer zero_uuid "shapes:rect" "Original" true 1 "normal" None.

(** ** Further observations on a call log *)

Fixpoint count_calls (p : CanvasCall -> bool) (cs : list CanvasCall) : nat :=
  match cs with
  | [] => 0
  | c :: rest => (if p c then 1 else 0) + count_calls p rest
  end.

Definition is_save (c : CanvasCall) : bool :=
  match c with CallSave => true | _ => false end.

Definition is_restore (c : CanvasCall) : bool :=
  match c with CallRestore => true | _ => false end.

Definition is_drawImage (c : CanvasCall) : bool :=
  match c with CallDrawImage _ _ => true | _ => false end.

(** What each [render] call was given: the layer type whose [render] ran,
    the properties and bounds passed, and the composite operation in
    force. *)
Definition render_args (cs : list CanvasCall)
    : list (option LayerTypeDefinition * LayerProperties * LayerBounds * string) :=
  omap (fun c => match c with
                 | CallRender lt props bounds seen =>
                     Some (Some lt, props, bounds,
                           globalCompositeOperation seen)
                 | _ => None
                 end) cs.

(** What a node would hand to [render] if it were rendered as a leaf. *)
Definition node_args (registry : PluginRegistry) (layer : DesignLayer)
    : option LayerTypeDefinition * LayerProperties * LayerBounds * string :=
  (registry (type layer), properties layer, bounds_of (transform layer),
   toCompositeOp (blendMode layer)).

(** What compositing appends to the log, whatever the context: the
    context's state and save stack come back as they were, saves and
    restores pair up, the base image is not drawn again, and the render
    calls follow the tree's parent-first, left-to-right node order. *)
Definition well_framed (reg : PluginRegistry) (nodes : list DesignLayer)
    (before after : Ctx) : Prop :=
  exists emitted,
    after = mkCtx (state before) (saved before) (calls before ++ emitted)
    /\ count_calls is_save emitted = count_calls is_restore emitted
    /\ count_calls is_drawImage emitted = 0%nat
    /\ render_args emitted `sublist_of` map (node_args reg) nodes.


(** ** Addressing a layer of the stack *)

(** [l] is the first top-level layer of [ls] with id [layerId], at index
    [k]: the layer the stack's methods act on when given that id. *)
Definition found_at (layerId : string) (ls : list DesignLayer)
    (k : nat) (l : DesignLayer) : Prop :=
  ls !! k = Some l /\ id l = layerId
  /\ forall j l', (j < k)%nat -> ls !! j = Some l' -> id l' <> layerId.

(** The index [reorder] moves a layer to. *)
Definition clamped_index (newIndex : Z) (ls : list DesignLayer) : nat :=
  Z.to_nat (Z.max 0 (Z.min newIndex (Z.of_nat (length ls) - 1))).

(** A [Partial<LayerTransform>] with no field present. *)
Definition empty_partial_transform : PartialTransform :=
  PartialTransform.mk None None None None None None None None None.

(** ** The shape of a generated id *)

Definition hex_digits : list ascii :=
  ["0"; "1"; "2"; "3"; "4"; "5"; "6"; "7";
   "8"; "9"; "a"; "b"; "c"; "d"; "e"; "f"]%char.

Definition variant_digits : list ascii := ["8"; "9"; "a"; "b"]%char.

(** The first character [uuid]'s callback produces at the n-th
    [Math.random] call. *)
Definition uuid_digit (Math_random : nat -> Q) (c : ascii) (n : nat) : ascii :=
  match uuid_char Math_random c n with
  | String h _ => h
  | EmptyString => "0"%char
  end.

(** ** Plugin registry *)

(** The registry that [createPluginRegistry] returns, as the compositor's
    [PluginRegistry] is obtained from it.  A plugin's tools and export
    handlers are opaque to the registry and stand for themselves by their
    ids; its [initialize] and [dispose] functions are external and are
    given by what calling them yields.  The context handed to
    [initialize] (a logger and two maps private to it) cannot be observed
    through the registry and is left out.  Calls to [register] are awaited
    one at a time. *)

Record McpToolDefinition : Type := mkMcpTool {
  tool_name : string;
  tool_description : string }.

Module DesignPlugin.
Record t : Type := mk {
  id : string;
  name : string;
  version : string;
  dependencies : option (list string);
  layerTypes : list LayerTypeDefinition;
  tools : list string;
  exportHandlers : list string;
  mcpTools : list McpToolDefinition;
  initialize : Outcome unit;
  dispose : Outcome unit }.
End DesignPlugin.
Abbreviation DesignPlugin := DesignPlugin.t.

Module PrefixedMcpTool.
Record t : Type := mk {
  name : string;
  pluginId : string;
  definition : McpToolDefinition }.
End PrefixedMcpTool.
Abbreviation PrefixedMcpTool := PrefixedMcpTool.t.

Inductive LifecycleCall : Type :=
| Initialize (pluginId : string)
| Dispose (pluginId : string).

(** A JavaScript [Map] with string keys: its entries in insertion order. *)
Section JsMap.
Context {V : Type}.

Definition key_is (k : string) (entry : string * V) : bool :=
  String.eqb (fst entry) k.

Definition Map_has (k : string) (m : list (string * V)) : bool :=
  existsb (key_is k) m.

Definition Map_get (k : string) (m : list (string * V)) : option V :=
  snd <$> Array_find (key_is k) m.

Definition Map_set (k : string) (v : V) (m : list (string * V))
    : list (string * V) :=
  if Map_has k m
  then map (fun entry => if key_is k entry then (k, v) else entry) m
  else m ++ [(k, v)].

Definition Map_delete (k : string) (m : list (string * V))
    : list (string * V) :=
  List.filter (fun entry => negb (key_is k entry)) m.

Definition Map_values (m : list (string * V)) : list V := map snd m.
End JsMap.

Module Registry.

Record State : Type := mkState {
  plugins : list (string * DesignPlugin);
  lifecycle : list LifecycleCall }.

Definition createPluginRegistry : State := mkState [] [].

Definition already_registered_message (pluginId : string) : string :=
  ("Plugin " ++ double_quote ++ pluginId ++ double_quote
   ++ " is already registered")%string.

Definition missing_dependency_message (pluginId dep : string) : string :=
  ("Plugin " ++ double_quote ++ pluginId ++ double_quote ++ " depends on "
   ++ double_quote ++ dep ++ double_quote ++ " which is not registered")%string.

Definition not_registered_message (pluginId : string) : string :=
  ("Plugin " ++ double_quote ++ pluginId ++ double_quote
   ++ " is not registered")%string.

(** The first dependency the validation loop finds missing. *)
Definition first_missing_dependency (plugin : DesignPlugin) (st : State)
    : option string :=
  match DesignPlugin.dependencies plugin with
  | Some deps => Array_find (fun dep => negb (Map_has dep (plugins st))) deps
  | None => None
  end.

Definition register (plugin : DesignPlugin) (st : State)
    : Outcome unit * State :=
  if Map_has (DesignPlugin.id plugin) (plugins st) then
    (Thrown (already_registered_message (DesignPlugin.id plugin)), st)
  else
    match first_missing_dependency plugin st with
    | Some dep =>
        (Thrown (missing_dependency_message (DesignPlugin.id plugin) dep), st)
    | None =>
        let called :=
          lifecycle st ++ [Initialize (DesignPlugin.id plugin)] in
        match DesignPlugin.initialize plugin with
        | Thrown e => (Thrown e, mkState (plugins st) called)
        | Returned _ =>
            (Returned tt,
             mkState (Map_set (DesignPlugin.id plugin) plugin (plugins st))
               called)
        end
    end.

Definition unregister (pluginId : string) (st : State)
    : Outcome unit * State :=
  match Map_get pluginId (plugins st) with
  | None => (Thrown (not_registered_message pluginId), st)
  | Some plugin =>
      let called := lifecycle st ++ [Dispose pluginId] in
      match DesignPlugin.dispose plugin with
      | Thrown e => (Thrown e, mkState (plugins st) called)
      | Returned _ =>
          (Returned tt, mkState (Map_delete pluginId (plugins st)) called)
      end
  end.

Definition get (pluginId : string) (st : State) : option DesignPlugin :=
  Map_get pluginId (plugins st).

Definition getAll (st : State) : list DesignPlugin :=
  Map_values (plugins st).

Definition getLayerTypes (st : State) : list LayerTypeDefinition :=
  concat (map DesignPlugin.layerTypes (Map_values (plugins st))).

Definition has_typeId (requested : string) (lt : LayerTypeDefinition) : bool :=
  String.eqb (typeId lt) requested.

Fixpoint resolve_in (requested : string) (ps : list DesignPlugin)
    : option LayerTypeDefinition :=
  match ps with
  | [] => None
  | plugin :: rest =>
      match Array_find (has_typeId requested) (DesignPlugin.layerTypes plugin) with
      | Some found => Some found
      | None => resolve_in requested rest
      end
  end.

Definition resolveLayerType (st : State) : PluginRegistry :=
  fun requested => resolve_in requested (Map_values (plugins st)).

Definition getMcpTools (st : State) : list PrefixedMcpTool :=
  concat
    (map (fun plugin =>
            map (fun tool =>
                   PrefixedMcpTool.mk ("design_" ++ tool_name tool)%string
                     (DesignPlugin.id plugin) tool)
                (DesignPlugin.mcpTools plugin))
         (Map_values (plugins st))).

Definition getDesignTools (st : State) : list string :=
  concat (map DesignPlugin.tools (Map_values (plugins st))).

Definition getExportHandlers (st : State) : list string :=
  concat (map DesignPlugin.exportHandlers (Map_values (plugins st))).

End Registry.

(** No two registered plugins share an id, and every plugin is stored
    under its own id. *)
Definition registry_consistent (st : Registry.State) : Prop :=
  NoDup (map fst (Registry.plugins st))
  /\ Forall (fun entry => fst entry = DesignPlugin.id (snd entry))
       (Registry.plugins st).

(** Every registered plugin's dependencies were registered before it. *)
Definition dependencies_first (st : Registry.State) : Prop :=
  forall i k plugin deps dep,
    Registry.plugins st !! i = Some (k, plugin) ->
    DesignPlugin.dependencies plugin = Some deps ->
    dep ∈ deps ->
    exists j other, (j < i)%nat /\ Registry.plugins st !! j = Some (dep, other).

(** Registering a list of plugins in order, whatever each call yields. *)
Definition register_all (ps : list DesignPlugin) (st : Registry.State)
    : Registry.State :=
  fold_left (fun acc plugin => snd (Registry.register plugin acc)) ps st.

(** ** Further sample inputs *)

(** A registry function that knows the two shape types only. *)
Definition shapes_only_registry : PluginRegistry :=
  fun ty =>
    if String.eqb ty "shapes:rect" then Some (mkLayerType ty cat_shape)
    else if String.eqb ty "shapes:ellipse" then Some (mkLayerType ty cat_shape)
    else None.

Definition grid_guide_layer : DesignLayer :=
  sample_layer "guide-1" "guides:grid" "Grid" true 1 "normal" None.

(** A random source that cycles through 0/16, 1/16, ..., 15/16. *)
Definition cycling_random : nat -> Q :=
  fun n => Z.of_nat (n mod 16) # 16.

Definition shapes_plugin : DesignPlugin :=
  DesignPlugin.mk "shapes" "Shapes" "1.0.0" None
    [mkLayerType "shapes:rect" cat_shape;
     mkLayerType "shapes:ellipse" cat_shape]
    ["shapes:select"] [] [mkMcpTool "add_rect" "Add a rectangle"]
    (Returned tt) (Returned tt).

Definition guides_plugin : DesignPlugin :=
  DesignPlugin.mk "guides" "Guides" "1.0.0" (Some ["shapes"])
    [mkLayerType "guides:grid" cat_guide;
     mkLayerType "shapes:rect" cat_guide]
    [] [] [] (Returned tt) (Returned tt).

Definition shapes_registry : Registry.State :=
  register_all [shapes_plugin] Registry.createPluginRegistry.


(** ** Nodes that can be drawn, scope calls, anonymous trees *)

(** The nodes of a layer tree that are visible and have only visible
    ancestors, parent before children, left to right. *)
Fixpoint shown_nodes (layer : DesignLayer) : list DesignLayer :=
  if visible layer then
    layer ::
    match children layer with
    | Some cs => concat (map shown_nodes cs)
    | None => []
    end
  else [].

(** The calls a group makes around its children. *)
Definition is_scope_call (c : CanvasCall) : bool :=
  match c with
  | CallSave | CallRestore | SetGlobalAlpha _
  | SetGlobalCompositeOperation _ => true
  | _ => false
  end.

(** A layer tree with the id and the name of every node blanked. *)
Fixpoint without_id_and_name (layer : DesignLayer) : DesignLayer :=
  match layer with
  | mkDesignLayer _ ty _ vis lk op bm tr props kids =>
      mkDesignLayer "" ty "" vis lk op bm tr props
        match kids with
        | Some cs => Some (map without_id_and_name cs)
        | None => None
        end
  end.

Definition hidden_ellipse_layer : DesignLayer :=
  sample_layer "ellipse-2" "shapes:ellipse" "Hidden" false (3 # 4) "screen"
    None.

(** A visible group holding an invisible leaf and a visible one. *)
Definition mixed_group : DesignLayer :=
  sample_layer "group-3" "group" "Mixed" true 1 "normal"
    (Some [hidden_ellipse_layer; rect_layer]).

(** * Properties *)

(** ** Induction on layer trees *)

Lemma DesignLayer_tree_ind (P : DesignLayer -> Prop) :
  (forall i ty nm vis lk op bm tr props kids,
     Forall_children P kids ->
     P (mkDesignLayer i ty nm vis lk op bm tr props kids)) ->
  forall layer, P layer.
Proof.
  intros step. fix rec 1.
  intros [i ty nm vis lk op bm tr props kids]. apply step.
  destruct kids as [cs|]; [|exact I]. cbn.
  induction cs as [|c rest IH]; constructor; [apply rec | exact IH].
Qed.

(** ** Compositor: unfolding and framing *)

Lemma compositeLayer_unfold reg ig layer ctx :
  compositeLayer reg ig layer ctx =
  if negb (visible layer) then ctx else
  if negb ig && is_guide (reg (type layer)) then ctx else
  match children layer with
  | Some ((_ :: _) as cs) =>
      ctx_restore (compositeLayers reg ig cs (enterGroup layer ctx))
  | _ =>
      match reg (type layer) with
      | None => ctx
      | Some lt => renderLeaf lt layer ctx
      end
  end.
Proof. destruct layer; reflexivity. Qed.

Lemma compositeLayers_cons reg ig layer rest ctx :
  compositeLayers reg ig (layer :: rest) ctx =
  compositeLayers reg ig rest (compositeLayer reg ig layer ctx).
Proof. reflexivity. Qed.

Lemma renderLeaf_spec lt layer ctx :
  renderLeaf lt layer ctx =
  mkCtx (state ctx) (saved ctx) (calls ctx ++ leaf_calls lt layer ctx).
Proof.
  unfold renderLeaf, leaf_calls, leaf_state, leaf_transform.
  destruct ctx as [[alpha op tr] sv cs].
  destruct (num_neq (LayerTransform.rotation (transform layer)) 0);
    destruct (num_neq (LayerTransform.scaleX (transform layer)) 1
              || num_neq (LayerTransform.scaleY (transform layer)) 1);
    cbv [ctx_restore call_render ctx_translate ctx_rotate ctx_scale
         set_globalCompositeOperation set_globalAlpha ctx_save push_transform
         log state saved calls globalAlpha globalCompositeOperation
         currentTransform];
    cbn [app map call_of]; repeat rewrite <- app_assoc; reflexivity.
Qed.

Lemma mat_mul_identity_r m : mat_mul m mat_identity = m.
Proof.
  destruct m; unfold mat_mul, mat_identity; cbn; f_equal; lra.
Qed.

Lemma rotate_zero_matrix d :
  num_neq d 0 = false -> op_matrix (RotateDeg d) = mat_identity.
Proof.
  unfold num_neq. intros H. apply negb_false_iff, Qeq_bool_iff, Qeq_eqR in H.
  assert (Hr : radians d = 0%R).
  { unfold radians. rewrite H. unfold Q2R; cbn. lra. }
  cbn. rewrite Hr, cos_0, sin_0. unfold mat_identity. f_equal; lra.
Qed.

Lemma scale_one_matrix sx sy :
  num_neq sx 1 || num_neq sy 1 = false ->
  op_matrix (Scale sx sy) = mat_identity.
Proof.
  unfold num_neq. intros H. apply orb_false_iff in H as [Hx Hy].
  apply negb_false_iff, Qeq_bool_iff, Qeq_eqR in Hx.
  apply negb_false_iff, Qeq_bool_iff, Qeq_eqR in Hy.
  cbn. rewrite Hx, Hy. unfold mat_identity, Q2R; cbn. f_equal; lra.
Qed.

Lemma leaf_transform_matrix t :
  matrix_of (leaf_transform t) = matrix_of (full_transform t).
Proof.
  unfold leaf_transform, full_transform, matrix_of.
  destruct (num_neq (LayerTransform.rotation t) 0) eqn:Hrot;
    destruct (num_neq (LayerTransform.scaleX t) 1
              || num_neq (LayerTransform.scaleY t) 1) eqn:Hsc;
    cbn [app fold_left];
    try rewrite (rotate_zero_matrix _ Hrot);
    try rewrite (scale_one_matrix _ _ Hsc);
    repeat rewrite mat_mul_identity_r; reflexivity.
Qed.

(** ** Compositor: claims *)

(** C1 (evaluated on the code).  The stack
    [rect(opacity 0.8, multiply); group(opacity 0.5, [ellipse(opacity 1)])]
    issues two render calls; the ellipse's call is made under
    [globalAlpha = 1], the leaf's own opacity, and not under the product
    [1 * 0.5] with the enclosing group's opacity. *)
Theorem C1_nested_leaf_renders_at_own_opacity :
  let out := compositeDesignLayers [rect_layer; half_group] sample_registry
               fresh_ctx None in
  rendered_types (calls out) = ["shapes:rect"; "shapes:ellipse"]
  /\ render_alphas (calls out) = [4 # 5; opacity ellipse_layer]
  /\ opacity ellipse_layer = 1
  /\ opacity half_group = 1 # 2
  /\ ~ (opacity ellipse_layer == opacity ellipse_layer * opacity half_group).
Proof.
  cbv zeta. repeat split; try reflexivity.
  cbn. intros H. discriminate H.
Qed.

(** C3 (counterexample).  Two groups that differ only in their type tag:
    the one whose tag resolves to a guide is skipped together with its
    child, the one whose tag does not resolve has its child rendered. *)
Lemma C3_guide_typed_group_is_skipped :
  opacity guide_group = opacity half_group
  /\ blendMode guide_group = blendMode half_group
  /\ children guide_group = children half_group
  /\ compositeLayer sample_registry false guide_group fresh_ctx = fresh_ctx
  /\ rendered_types
       (calls (compositeLayer sample_registry false half_group fresh_ctx))
     = ["shapes:ellipse"]
  /\ compositeLayer sample_registry false guide_group fresh_ctx
     <> compositeLayer sample_registry false half_group fresh_ctx.
Proof.
  repeat split; try reflexivity.
  intros H. apply (f_equal (fun c => length (calls c))) in H.
  vm_compute in H. discriminate H.
Qed.

(** C3 (amended).  For visible groups that pass the guide gate
    ([includeGuides] set, or a type tag that does not resolve to a guide),
    the output is determined by opacity, blend mode and children: two such
    groups agreeing on these three composite identically, whatever their
    type tags, properties, names, ids, lock flags and transforms are.  A
    layer whose type tag resolves to the category guide, a group with its
    children included, is skipped whenever [includeGuides] is not true:
    compositing it logs nothing, with the options absent, the flag absent
    or the flag false. *)
Theorem C3_group_output_ignores_type_and_properties reg :
  (forall ig (g1 g2 : DesignLayer) c cs ctx,
     visible g1 = true -> visible g2 = true ->
     negb ig && is_guide (reg (type g1)) = false ->
     negb ig && is_guide (reg (type g2)) = false ->
     children g1 = Some (c :: cs) -> children g2 = Some (c :: cs) ->
     opacity g1 = opacity g2 ->
     blendMode g1 = blendMode g2 ->
     compositeLayer reg ig g1 ctx = compositeLayer reg ig g2 ctx)
  /\ (forall (g : DesignLayer) lt,
        reg (type g) = Some lt -> category lt = cat_guide ->
        (forall ctx, compositeLayer reg false g ctx = ctx)
        /\ (forall output,
              compositeDesignLayers [g] reg output None
              = ctx_drawImage 0 0 output
              /\ compositeDesignLayers [g] reg output (Some None)
                 = ctx_drawImage 0 0 output
              /\ compositeDesignLayers [g] reg output (Some (Some false))
                 = ctx_drawImage 0 0 output)).
Proof.
  split.
  - intros ig g1 g2 c cs ctx V1 V2 G1 G2 K1 K2 Hop Hbm.
    rewrite !compositeLayer_unfold, V1, V2, G1, G2, K1, K2. cbn.
    unfold enterGroup. rewrite Hop, Hbm. reflexivity.
  - intros g lt Hreg Hcat.
    assert (Hskip : forall ctx, compositeLayer reg false g ctx = ctx).
    { intros ctx. rewrite compositeLayer_unfold, Hreg.
      unfold is_guide. rewrite Hcat. cbn [negb andb].
      destruct (negb (visible g)); reflexivity. }
    split; [exact Hskip|].
    intros output. unfold compositeDesignLayers, compositeLayers.
    cbn [includeGuides_of fold_left]. rewrite Hskip. repeat split.
Qed.

Lemma C3_group_output_witness :
  compositeLayer sample_registry true guide_group fresh_ctx
  = compositeLayer sample_registry true half_group fresh_ctx
  /\ compositeLayer sample_registry false guide_group fresh_ctx = fresh_ctx
  /\ compositeDesignLayers [guide_group] sample_registry fresh_ctx (Some None)
     = ctx_drawImage 0 0 fresh_ctx.
Proof.
  destruct (C3_group_output_ignores_type_and_properties sample_registry)
    as [Hsame Hskip].
  destruct (Hskip guide_group (mkLayerType "guides:grid" cat_guide)
              eq_refl eq_refl) as [Hlayer Hlist].
  split; [|split].
  - apply (Hsame true guide_group half_group ellipse_layer [] fresh_ctx);
      reflexivity.
  - apply Hlayer.
  - apply (Hlist fresh_ctx).
Defined.

(** C7.  A visible leaf whose type resolves to a non-guide category logs,
    in this order: save, opacity, blend mode, translate to the anchor
    [(ax, ay) = (x + width*anchorX, y + height*anchorY)], rotate (only when
    [rotation] is not 0), scale (only when a scale factor is not 1),
    translate back by [(-ax, -ay)], the resolved type's render call with the
    layer's properties and the untransformed bounds, restore.  The context's
    state and save stack are afterwards what they were before.  The
    transform built with the skipped steps equals, as a matrix, the one of
    the full pipeline translate, rotate, scale, translate back. *)
Theorem C7_leaf_transform_order reg ig layer lt ctx :
  visible layer = true ->
  is_leaf layer ->
  reg (type layer) = Some lt ->
  category lt <> cat_guide ->
  let t := transform layer in
  let ax := LayerTransform.x t + LayerTransform.width t * LayerTransform.anchorX t in
  let ay := LayerTransform.y t + LayerTransform.height t * LayerTransform.anchorY t in
  let rot := if num_neq (LayerTransform.rotation t) 0
             then [RotateDeg (LayerTransform.rotation t)] else [] in
  let scl := if num_neq (LayerTransform.scaleX t) 1
                || num_neq (LayerTransform.scaleY t) 1
             then [Scale (LayerTransform.scaleX t) (LayerTransform.scaleY t)]
             else [] in
  let ops := [Translate ax ay] ++ rot ++ scl ++ [Translate (- ax) (- ay)] in
  let bounds :=
    LayerBounds.mk (LayerTransform.x t) (LayerTransform.y t)
      (LayerTransform.width t) (LayerTransform.height t)
      (LayerTransform.rotation t)
      (LayerTransform.scaleX t) (LayerTransform.scaleY t) in
  let seen :=
    mkDrawState (opacity layer) (toCompositeOp (blendMode layer))
      (currentTransform (state ctx) ++ ops) in
  compositeLayer reg ig layer ctx
  = mkCtx (state ctx) (saved ctx)
      (calls ctx
       ++ [CallSave; SetGlobalAlpha (opacity layer);
           SetGlobalCompositeOperation (toCompositeOp (blendMode layer))]
       ++ map call_of ops
       ++ [CallRender lt (properties layer) bounds seen; CallRestore])
  /\ matrix_of ops
     = matrix_of [Translate ax ay;
                  RotateDeg (LayerTransform.rotation t);
                  Scale (LayerTransform.scaleX t) (LayerTransform.scaleY t);
                  Translate (- ax) (- ay)].
Proof.
  intros Hvis Hleaf Hreg Hcat. cbv zeta. split.
  - rewrite compositeLayer_unfold, Hvis, Hreg. cbn [negb].
    assert (Hg : negb ig && is_guide (Some lt) = false).
    { unfold is_guide. destruct (category lt); try reflexivity;
        try apply andb_false_r. congruence. }
    rewrite Hg.
    destruct Hleaf as [-> | ->]; apply renderLeaf_spec.
  - apply (leaf_transform_matrix (transform layer)).
Qed.

Lemma C7_leaf_transform_order_witness :
  calls (compositeLayer sample_registry false turned_layer fresh_ctx)
  = [CallSave; SetGlobalAlpha (1 # 2); SetGlobalCompositeOperation "screen";
     CallTranslate (10 + 100 * (1 # 2)) (20 + 50 * (1 # 2));
     CallRotate 45; CallScale 2 1;
     CallTranslate (- (10 + 100 * (1 # 2))) (- (20 + 50 * (1 # 2)));
     CallRender (mkLayerType "shapes:rect" cat_shape) ∅
       (LayerBounds.mk 10 20 100 50 45 2 1)
       (mkDrawState (1 # 2) "screen"
          [Translate (10 + 100 * (1 # 2)) (20 + 50 * (1 # 2));
           RotateDeg 45; Scale 2 1;
           Translate (- (10 + 100 * (1 # 2))) (- (20 + 50 * (1 # 2)))]);
     CallRestore].
Proof.
  rewrite (proj1 (C7_leaf_transform_order sample_registry false turned_layer
                    (mkLayerType "shapes:rect" cat_shape) fresh_ctx
                    eq_refl (or_introl eq_refl) eq_refl
                    ltac:(discriminate))).
  reflexivity.
Defined.

Lemma compositeLayers_map_ext reg ig (f : DesignLayer -> DesignLayer) cs :
  Forall (fun c => forall ctx,
            compositeLayer reg ig (f c) ctx = compositeLayer reg ig c ctx) cs ->
  forall ctx,
    compositeLayers reg ig (map f cs) ctx = compositeLayers reg ig cs ctx.
Proof.
  induction 1 as [|c rest Hc _ IH]; intros ctx; [reflexivity|].
  cbn [map]. rewrite !compositeLayers_cons, Hc. apply IH.
Qed.

Lemma drop_hidden_children_composite reg ig layer :
  forall ctx,
    compositeLayer reg ig (drop_hidden_children layer) ctx
    = compositeLayer reg ig layer ctx.
Proof.
  induction layer as [i ty nm vis lk op bm tr props kids IH]
    using DesignLayer_tree_ind.
  intros ctx. rewrite !compositeLayer_unfold. cbn.
  destruct vis; [|reflexivity]. cbn.
  destruct (negb ig && is_guide (reg ty)); [reflexivity|].
  destruct kids as [[|c cs]|]; try reflexivity.
  cbn in IH. cbn [map]. f_equal.
  change (drop_hidden_children c :: map drop_hidden_children cs)
    with (map drop_hidden_children (c :: cs)).
  apply (compositeLayers_map_ext reg ig drop_hidden_children (c :: cs) IH).
Qed.

(** C10.  A layer whose [children] is an empty array takes the leaf path:
    it composites exactly as the same layer without a [children] field;
    when it is visible, passes the guide gate and its type resolves, what it
    logs is the leaf sequence (save, its own opacity assigned rather than
    multiplied into the current one, blend mode, transform, its type's
    render call with its own properties, restore); when its type does not
    resolve it logs nothing. *)
Theorem C10_empty_children_is_a_leaf reg ig layer ctx :
  children layer = Some [] ->
  compositeLayer reg ig layer ctx
  = compositeLayer reg ig (with_children None layer) ctx
  /\ (visible layer = true ->
      negb ig && is_guide (reg (type layer)) = false ->
      match reg (type layer) with
      | Some lt =>
          compositeLayer reg ig layer ctx
          = mkCtx (state ctx) (saved ctx)
              (calls ctx
               ++ [CallSave; SetGlobalAlpha (opacity layer);
                   SetGlobalCompositeOperation
                     (toCompositeOp (blendMode layer))]
               ++ map call_of (leaf_transform (transform layer))
               ++ [CallRender lt (properties layer)
                     (bounds_of (transform layer))
                     (mkDrawState (opacity layer)
                        (toCompositeOp (blendMode layer))
                        (currentTransform (state ctx)
                         ++ leaf_transform (transform layer)));
                   CallRestore])
      | None => compositeLayer reg ig layer ctx = ctx
      end).
Proof.
  intros Hkids. split.
  - rewrite !compositeLayer_unfold, Hkids. cbn.
    destruct (reg (type layer)); [|reflexivity].
    rewrite !renderLeaf_spec. reflexivity.
  - intros Hvis Hgate.
    rewrite compositeLayer_unfold, Hvis, Hgate, Hkids. cbn.
    destruct (reg (type layer)); [|reflexivity].
    apply renderLeaf_spec.
Qed.

Lemma C10_empty_children_is_a_leaf_witness :
  compositeLayer sample_registry false childless_array_layer fresh_ctx
  = compositeLayer sample_registry false
      (with_children None childless_array_layer) fresh_ctx
  /\ compositeLayer sample_registry false childless_array_layer fresh_ctx
     = mkCtx (state fresh_ctx) (saved fresh_ctx)
         [CallSave; SetGlobalAlpha (1 # 4);
          SetGlobalCompositeOperation "source-over";
          CallTranslate (10 + 100 * (1 # 2)) (20 + 100 * (1 # 2));
          CallTranslate (- (10 + 100 * (1 # 2))) (- (20 + 100 * (1 # 2)));
          CallRender (mkLayerType "shapes:rect" cat_shape)
            (properties childless_array_layer)
            (LayerBounds.mk 10 20 100 100 0 1 1)
            (mkDrawState (1 # 4) "source-over"
               [Translate (10 + 100 * (1 # 2)) (20 + 100 * (1 # 2));
                Translate (- (10 + 100 * (1 # 2))) (- (20 + 100 * (1 # 2)))]);
          CallRestore].
Proof.
  destruct (C10_empty_children_is_a_leaf sample_registry false
              childless_array_layer fresh_ctx eq_refl) as [Hsame Hcalls].
  split; [exact Hsame|].
  exact (Hcalls eq_refl eq_refl).
Defined.

(** ** Array primitives *)

Lemma find_first {A} (p : A -> bool) (l : list A) :
  forall i : Z,
  (Forall (fun a => p a = false) l
   /\ findIndex_from p i l = (-1)%Z /\ Array_find p l = None)
  \/ (exists k a,
        l !! k = Some a /\ p a = true
        /\ (forall j b, (j < k)%nat -> l !! j = Some b -> p b = false)
        /\ findIndex_from p i l = (i + Z.of_nat k)%Z
        /\ Array_find p l = Some a).
Proof.
  induction l as [|a rest IH]; intros i.
  - left. repeat split. constructor.
  - cbn. destruct (p a) eqn:Hpa.
    + right. exists 0%nat, a.
      split; [reflexivity|]. split; [assumption|].
      split; [intros j b Hj; lia|]. split; [lia | reflexivity].
    + destruct (IH (i + 1)%Z) as [(Hall & Hidx & Hfind) | (k & b & Hk & Hb & Hfirst & Hidx & Hfind)].
      * left. repeat split; [constructor; assumption | assumption | assumption].
      * right. exists (S k), b. repeat split; try assumption.
        -- intros [|j] c Hj Hc; cbn in Hc.
           ++ congruence.
           ++ apply (Hfirst j c); [lia | assumption].
        -- rewrite Hidx. lia.
Qed.

Lemma has_id_true layerId l : has_id layerId l = true <-> id l = layerId.
Proof. unfold has_id. apply String.eqb_eq. Qed.

Lemma has_id_false layerId l : has_id layerId l = false <-> id l <> layerId.
Proof. unfold has_id. apply String.eqb_neq. Qed.

Lemma absent_no_match layerId (ls : list DesignLayer) :
  layerId ∉ map id ls -> Forall (fun l => has_id layerId l = false) ls.
Proof.
  intros Habs. apply Forall_forall. intros l Hl. apply has_id_false.
  intros Heq. apply Habs. rewrite <- Heq. apply list_elem_of_fmap.
  exists l. split; [reflexivity | assumption].
Qed.

Lemma absent_findIndex layerId (ls : list DesignLayer) :
  layerId ∉ map id ls ->
  Array_findIndex (has_id layerId) ls = (-1)%Z
  /\ Array_find (has_id layerId) ls = None.
Proof.
  intros Habs. apply absent_no_match in Habs.
  destruct (find_first (has_id layerId) ls 0) as [(_ & Hidx & Hfind) | (k & a & Hk & Ha & _)].
  - split; assumption.
  - exfalso. rewrite Forall_forall in Habs.
    apply list_elem_of_lookup_2 in Hk. rewrite (Habs a Hk) in Ha. discriminate.
Qed.

Lemma first_findIndex layerId (ls : list DesignLayer) k l :
  ls !! k = Some l -> id l = layerId ->
  (forall j l', (j < k)%nat -> ls !! j = Some l' -> id l' <> layerId) ->
  Array_findIndex (has_id layerId) ls = Z.of_nat k
  /\ Array_find (has_id layerId) ls = Some l.
Proof.
  intros Hk Hid Hfirst.
  destruct (find_first (has_id layerId) ls 0) as [(Hall & _) | (k' & a & Hk' & Ha & Hfirst' & Hidx & Hfind)].
  - exfalso. rewrite Forall_forall in Hall.
    apply list_elem_of_lookup_2 in Hk. apply Hall, has_id_false in Hk.
    contradiction.
  - assert (k' = k) as ->.
    { destruct (Nat.lt_trichotomy k' k) as [Hlt | [Heq | Hgt]]; [|assumption|].
      - exfalso. apply (Hfirst k' a Hlt Hk'). apply has_id_true, Ha.
      - exfalso. specialize (Hfirst' k l Hgt Hk).
        apply has_id_false in Hfirst'. contradiction. }
    rewrite Hk in Hk'. injection Hk' as ->.
    split; [exact Hidx | exact Hfind].
Qed.

Lemma present_has_first layerId (ls : list DesignLayer) :
  layerId ∈ map id ls ->
  exists k l, ls !! k = Some l /\ id l = layerId
    /\ (forall j l', (j < k)%nat -> ls !! j = Some l' -> id l' <> layerId).
Proof.
  intros Hin.
  destruct (find_first (has_id layerId) ls 0) as [(Hall & _) | (k & a & Hk & Ha & Hfirst & _)].
  - exfalso. apply list_elem_of_fmap in Hin as (l & -> & Hl).
    rewrite Forall_forall in Hall. apply Hall, has_id_false in Hl.
    contradiction.
  - exists k, a. split; [assumption|]. split; [apply has_id_true, Ha|].
    intros j l' Hj Hl'. apply has_id_false. apply (Hfirst j l' Hj Hl').
Qed.

Lemma top_ids_in_tree (ls : list DesignLayer) layerId :
  layerId ∈ map id ls -> layerId ∈ tree_ids ls.
Proof.
  intros Hin. apply list_elem_of_fmap in Hin as (l & -> & Hl).
  unfold tree_ids. apply list_elem_of_fmap. exists l. split; [reflexivity|].
  apply list_elem_of_In, in_concat. exists (subtree l). split.
  - apply in_map, list_elem_of_In, Hl.
  - destruct l; cbn. left. reflexivity.
Qed.

Lemma Array_splice_insert {A} (i : nat) (x : A) (l : list A) :
  (i <= length l)%nat ->
  Array_splice (Z.of_nat i) 0 [x] l = ([], take i l ++ x :: drop i l).
Proof.
  intros Hi. unfold Array_splice, splice_start.
  assert (Hneg : (Z.of_nat i <? 0)%Z = false) by (apply Z.ltb_ge; lia).
  rewrite Hneg.
  replace (Z.to_nat (Z.min (Z.of_nat i) (Z.of_nat (length l)))) with i by lia.
  replace (Z.to_nat (Z.min (Z.max 0 0) (Z.of_nat (length l - i)))) with 0%nat
    by lia.
  cbn. rewrite Nat.add_0_r. reflexivity.
Qed.

Lemma insert_at_lookup {A} (i : nat) (x : A) (l : list A) :
  (i <= length l)%nat ->
  (take i l ++ x :: drop i l) !! i = Some x
  /\ (forall j, (j < i)%nat -> (take i l ++ x :: drop i l) !! j = l !! j)
  /\ (forall j, (i <= j)%nat -> (take i l ++ x :: drop i l) !! S j = l !! j).
Proof.
  intros Hi.
  assert (Hlen : length (take i l) = i) by (rewrite length_take; lia).
  repeat split.
  - rewrite lookup_app_r by lia. rewrite Hlen, Nat.sub_diag. reflexivity.
  - intros j Hj. rewrite lookup_app_l by lia. apply lookup_take_lt. lia.
  - intros j Hj. rewrite lookup_app_r by lia. rewrite Hlen.
    replace (S j - i)%nat with (S (j - i)) by lia.
    change ((x :: drop i l) !! S (j - i)) with (drop i l !! (j - i)%nat).
    rewrite lookup_drop. f_equal. lia.
Qed.

(** ** Layer stack: the steps of the accessor methods *)

Lemma findIndex_absent layerId st :
  layerId ∉ map id (layers st) ->
  findIndex layerId st = (Thrown (not_found_message layerId), st).
Proof.
  intros Habs. unfold findIndex, bind, get_layers. cbv beta iota.
  rewrite (proj1 (absent_findIndex _ _ Habs)). reflexivity.
Qed.

Lemma findIndex_first layerId st k l :
  layers st !! k = Some l -> id l = layerId ->
  (forall j l', (j < k)%nat -> layers st !! j = Some l' -> id l' <> layerId) ->
  findIndex layerId st = (Returned (Z.of_nat k), st).
Proof.
  intros Hk Hid Hfirst. unfold findIndex, bind, get_layers. cbv beta iota.
  rewrite (proj1 (first_findIndex _ _ _ _ Hk Hid Hfirst)).
  destruct (Z.eqb_spec (Z.of_nat k) (-1)) as [Heq|_]; [lia | reflexivity].
Qed.

Lemma layer_at_lookup st k l :
  layers st !! k = Some l -> layer_at (Z.of_nat k) st = (Returned l, st).
Proof.
  intros Hk. unfold layer_at, bind, get_layers. cbv beta iota.
  destruct (Z.ltb_spec (Z.of_nat k) 0) as [Hneg|_]; [lia|].
  rewrite Nat2Z.id, Hk. reflexivity.
Qed.

Lemma get_absent layerId st :
  layerId ∉ map id (layers st) -> get layerId st = (Returned None, st).
Proof.
  intros Habs. unfold get, bind, get_layers, ret. cbv beta iota.
  rewrite (proj2 (absent_findIndex _ _ Habs)). reflexivity.
Qed.

Lemma get_first layerId st k l :
  layers st !! k = Some l -> id l = layerId ->
  (forall j l', (j < k)%nat -> layers st !! j = Some l' -> id l' <> layerId) ->
  get layerId st = (Returned (Some l), st).
Proof.
  intros Hk Hid Hfirst. unfold get, bind, get_layers, ret. cbv beta iota.
  rewrite (proj2 (first_findIndex _ _ _ _ Hk Hid Hfirst)). reflexivity.
Qed.

Lemma updateProperties_first layerId partial st k l :
  layers st !! k = Some l -> id l = layerId ->
  (forall j l', (j < k)%nat -> layers st !! j = Some l' -> id l' <> layerId) ->
  updateProperties layerId partial st
  = (Returned tt,
     mkStack
       (<[k := mkDesignLayer (id l) (type l) (name l) (visible l) (locked l)
                 (opacity l) (blendMode l) (transform l)
                 (omap (fun v => v) (delete "__proto__" partial)
                  ∪ properties l) (children l)]>
          (layers st))
       (notified st ++ [layer_updated]) (random_calls st)).
Proof.
  intros Hk Hid Hfirst. unfold updateProperties, bind.
  rewrite (findIndex_first _ _ _ _ Hk Hid Hfirst), (layer_at_lookup _ _ _ Hk).
  unfold store_layer, bind, get_layers, put_layers, onChange.
  cbv beta iota. rewrite Nat2Z.id. reflexivity.
Qed.

Lemma updateTransform_first layerId partial st k l :
  layers st !! k = Some l -> id l = layerId ->
  (forall j l', (j < k)%nat -> layers st !! j = Some l' -> id l' <> layerId) ->
  updateTransform layerId partial st
  = (Returned tt,
     mkStack
       (<[k := mkDesignLayer (id l) (type l) (name l) (visible l) (locked l)
                 (opacity l) (blendMode l)
                 (merge_transform (transform l) partial)
                 (properties l) (children l)]>
          (layers st))
       (notified st ++ [layer_updated]) (random_calls st)).
Proof.
  intros Hk Hid Hfirst. unfold updateTransform, bind.
  rewrite (findIndex_first _ _ _ _ Hk Hid Hfirst), (layer_at_lookup _ _ _ Hk).
  unfold store_layer, bind, get_layers, put_layers, onChange.
  cbv beta iota. rewrite Nat2Z.id. reflexivity.
Qed.

Lemma updateBlend_first layerId newBlendMode newOpacity st k l :
  layers st !! k = Some l -> id l = layerId ->
  (forall j l', (j < k)%nat -> layers st !! j = Some l' -> id l' <> layerId) ->
  updateBlend layerId newBlendMode newOpacity st
  = (Returned tt,
     mkStack
       (<[k := mkDesignLayer (id l) (type l) (name l) (visible l) (locked l)
                 (default (opacity l) newOpacity)
                 (default (blendMode l) newBlendMode)
                 (transform l) (properties l) (children l)]>
          (layers st))
       (notified st ++ [layer_updated]) (random_calls st)).
Proof.
  intros Hk Hid Hfirst. unfold updateBlend, bind.
  rewrite (findIndex_first _ _ _ _ Hk Hid Hfirst), (layer_at_lookup _ _ _ Hk).
  unfold store_layer, bind, get_layers, put_layers, onChange.
  cbv beta iota. rewrite Nat2Z.id. reflexivity.
Qed.

Lemma not_found_everywhere rnd layerId st :
  layerId ∉ map id (layers st) ->
  (forall partial,
     updateProperties layerId partial st
     = (Thrown (not_found_message layerId), st))
  /\ (forall partial,
        updateTransform layerId partial st
        = (Thrown (not_found_message layerId), st))
  /\ (forall newBlendMode newOpacity,
        updateBlend layerId newBlendMode newOpacity st
        = (Thrown (not_found_message layerId), st))
  /\ (forall newIndex,
        reorder layerId newIndex st
        = (Thrown (not_found_message layerId), st))
  /\ duplicate rnd layerId st = (Thrown (not_found_message layerId), st)
  /\ remove layerId st = (Returned false, st).
Proof.
  intros Habs. pose proof (findIndex_absent _ _ Habs) as Hfi.
  repeat split; intros.
  - unfold updateProperties, bind. rewrite Hfi. reflexivity.
  - unfold updateTransform, bind. rewrite Hfi. reflexivity.
  - unfold updateBlend, bind. rewrite Hfi. reflexivity.
  - unfold reorder, bind. rewrite Hfi. reflexivity.
  - unfold duplicate, bind. rewrite Hfi. reflexivity.
  - unfold remove, bind, get_layers. cbv beta iota.
    rewrite (proj1 (absent_findIndex _ _ Habs)). reflexivity.
Qed.

(** ** Layer stack: claims *)

(** C2 (counterexample).  In the stack [group-1 [ellipse-1]; rect-1] the id
    "ellipse-1" occurs in the layer tree, as a child of the group, yet
    [get] answers null for it and the three updates fail with not-found. *)
Lemma C2_nested_child_is_not_found :
  "ellipse-1" ∈ tree_ids (layers sample_stack)
  /\ get "ellipse-1" sample_stack = (Returned None, sample_stack)
  /\ updateProperties "ellipse-1" {[ "fill" := Some (PString "#000") ]}
       sample_stack
     = (Thrown (not_found_message "ellipse-1"), sample_stack)
  /\ updateTransform "ellipse-1"
       (PartialTransform.mk (Some 50) None None None None None None None None)
       sample_stack
     = (Thrown (not_found_message "ellipse-1"), sample_stack)
  /\ updateBlend "ellipse-1" (Some "multiply") None sample_stack
     = (Thrown (not_found_message "ellipse-1"), sample_stack).
Proof.
  split.
  - apply list_elem_of_In. vm_compute. right. left. reflexivity.
  - repeat split; vm_compute; reflexivity.
Qed.

(** C2 (amended).  Lookup and update search the top-level sequence only.
    For an id carried by a top-level layer, [get] returns the first
    top-level layer with that id, and [updateProperties], [updateTransform]
    and [updateBlend] succeed, rewriting that layer in place and notifying
    layer-updated.  For an id carried by no top-level layer (even one that
    occurs on a nested child), [get] returns null and the three updates
    fail with not-found. *)
Theorem C2_lookup_and_update_search_top_level st layerId :
  (layerId ∈ map id (layers st) ->
   exists k l,
     layers st !! k = Some l /\ id l = layerId
     /\ (forall j l', (j < k)%nat -> layers st !! j = Some l' ->
                      id l' <> layerId)
     /\ get layerId st = (Returned (Some l), st)
     /\ (forall partial,
           exists l',
             updateProperties layerId partial st
             = (Returned tt,
                mkStack (<[k := l']> (layers st))
                  (notified st ++ [layer_updated]) (random_calls st))
             /\ id l' = layerId
             /\ properties l'
                = omap (fun v => v) (delete "__proto__" partial)
                  ∪ properties l)
     /\ (forall partial,
           exists l',
             updateTransform layerId partial st
             = (Returned tt,
                mkStack (<[k := l']> (layers st))
                  (notified st ++ [layer_updated]) (random_calls st))
             /\ id l' = layerId
             /\ transform l' = merge_transform (transform l) partial)
     /\ (forall newBlendMode newOpacity,
           exists l',
             updateBlend layerId newBlendMode newOpacity st
             = (Returned tt,
                mkStack (<[k := l']> (layers st))
                  (notified st ++ [layer_updated]) (random_calls st))
             /\ id l' = layerId
             /\ blendMode l' = default (blendMode l) newBlendMode
             /\ opacity l' = default (opacity l) newOpacity))
  /\ (layerId ∉ map id (layers st) ->
      get layerId st = (Returned None, st)
      /\ (forall partial,
            updateProperties layerId partial st
            = (Thrown (not_found_message layerId), st))
      /\ (forall partial,
            updateTransform layerId partial st
            = (Thrown (not_found_message layerId), st))
      /\ (forall newBlendMode newOpacity,
            updateBlend layerId newBlendMode newOpacity st
            = (Thrown (not_found_message layerId), st))).
Proof.
  split.
  - intros Hin.
    destruct (present_has_first _ _ Hin) as (k & l & Hk & Hid & Hfirst).
    exists k, l. split; [assumption|]. split; [assumption|].
    split; [assumption|].
    split; [apply (get_first _ _ _ _ Hk Hid Hfirst)|].
    split; [|split].
    + intros partial. eexists. split.
      * apply (updateProperties_first _ _ _ _ _ Hk Hid Hfirst).
      * split; [exact Hid | reflexivity].
    + intros partial. eexists. split.
      * apply (updateTransform_first _ _ _ _ _ Hk Hid Hfirst).
      * split; [exact Hid | reflexivity].
    + intros newBlendMode newOpacity. eexists. split.
      * apply (updateBlend_first _ _ _ _ _ _ Hk Hid Hfirst).
      * split; [exact Hid | split; reflexivity].
  - intros Habs.
    destruct (not_found_everywhere (fun _ => 0) _ _ Habs)
      as (Hp & Ht & Hb & _).
    split; [apply (get_absent _ _ Habs)|]. repeat split; assumption.
Qed.

Lemma C2_lookup_and_update_search_top_level_witness :
  (exists l, get "rect-1" sample_stack = (Returned (Some l), sample_stack)
             /\ id l = "rect-1")
  /\ get "ellipse-1" sample_stack = (Returned None, sample_stack).
Proof.
  split.
  - destruct (proj1 (C2_lookup_and_update_search_top_level
                       sample_stack "rect-1"))
      as (k & l & _ & Hid & _ & Hget & _).
    + apply list_elem_of_In. vm_compute. right. left. reflexivity.
    + exists l. split; assumption.
  - apply (proj2 (C2_lookup_and_update_search_top_level
                    sample_stack "ellipse-1")).
    intros Hin. apply list_elem_of_In in Hin. vm_compute in Hin.
    destruct Hin as [H | [H | H]]; [discriminate H | discriminate H | exact H].
Defined.

(** C6.  For a layer id that occurs nowhere in the stack, each of
    [updateProperties], [updateTransform], [updateBlend], [reorder] and
    [duplicate] throws the not-found error and [remove] returns false; in
    every case the stack afterwards is the stack before: same layer tree,
    no notification added. *)
Theorem C6_not_found_mutations_change_nothing rnd st layerId :
  layerId ∉ tree_ids (layers st) ->
  (forall partial,
     updateProperties layerId partial st
     = (Thrown (not_found_message layerId), st))
  /\ (forall partial,
        updateTransform layerId partial st
        = (Thrown (not_found_message layerId), st))
  /\ (forall newBlendMode newOpacity,
        updateBlend layerId newBlendMode newOpacity st
        = (Thrown (not_found_message layerId), st))
  /\ (forall newIndex,
        reorder layerId newIndex st
        = (Thrown (not_found_message layerId), st))
  /\ duplicate rnd layerId st = (Thrown (not_found_message layerId), st)
  /\ remove layerId st = (Returned false, st).
Proof.
  intros Habs. apply not_found_everywhere.
  intros Htop. apply Habs, top_ids_in_tree, Htop.
Qed.

Lemma C6_not_found_mutations_change_nothing_witness :
  reorder "missing" 0 sample_stack
  = (Thrown (not_found_message "missing"), sample_stack)
  /\ duplicate zero_random "missing" sample_stack
     = (Thrown (not_found_message "missing"), sample_stack)
  /\ remove "missing" sample_stack = (Returned false, sample_stack).
Proof.
  assert (Habs : "missing" ∉ tree_ids (layers sample_stack)).
  { intros Hin. apply list_elem_of_In in Hin. vm_compute in Hin.
    destruct Hin as [H | [H | [H | H]]];
      [discriminate H | discriminate H | discriminate H | exact H]. }
  destruct (C6_not_found_mutations_change_nothing zero_random sample_stack
              "missing" Habs) as (_ & _ & _ & Hr & Hd & Hrm).
  split; [apply Hr | split; [exact Hd | exact Hrm]].
Defined.

Lemma toMutable_same layer : toMutable layer = layer.
Proof.
  induction layer as [i ty nm vis lk op bm tr props kids IH]
    using DesignLayer_tree_ind.
  cbn. f_equal. destruct kids as [cs|]; [|reflexivity]. f_equal.
  cbn in IH. induction IH as [|c rest Hc _ IHrest]; [reflexivity|].
  cbn. rewrite Hc, IHrest. reflexivity.
Qed.

Lemma append_is_insert_at_end {A} (x : A) (l : list A) :
  l ++ [x] = take (length l) l ++ x :: drop (length l) l.
Proof. rewrite firstn_all, drop_all. reflexivity. Qed.

Lemma add_spec layer index st :
  add layer index st
  = (Returned tt,
     mkStack
       (match index with
        | Some i =>
            if (0 <=? i)%Z && (i <=? Z.of_nat (length (layers st)))%Z
            then take (Z.to_nat i) (layers st)
                 ++ toMutable layer :: drop (Z.to_nat i) (layers st)
            else layers st ++ [toMutable layer]
        | None => layers st ++ [toMutable layer]
        end)
       (notified st ++ [layer_added]) (random_calls st)).
Proof.
  unfold add, bind, get_layers. cbv beta iota.
  destruct index as [i|]; [|reflexivity].
  destruct ((0 <=? i)%Z && (i <=? Z.of_nat (length (layers st)))%Z) eqn:Hrange;
    [|reflexivity].
  apply andb_true_iff in Hrange as [Hlo Hhi].
  apply Z.leb_le in Hlo. apply Z.leb_le in Hhi.
  unfold splice, bind, get_layers. cbv beta iota.
  pose proof (Array_splice_insert (Z.to_nat i) (toMutable layer) (layers st))
    as Hsplice.
  rewrite Z2Nat.id in Hsplice by assumption.
  rewrite Hsplice by lia. reflexivity.
Qed.

(** C5 (counterexample).  [add(ellipse, -1)] on the one-layer stack
    [rect-1]: the clamped position max(0, min(-1, 1)) is 0, but the new
    layer is appended, at position 1, and position 0 still holds rect-1. *)
Lemma C5_negative_index_appends :
  let st := createLayerStack [rect_layer] in
  let st' := snd (add ellipse_layer (Some (-1)%Z) st) in
  Z.max 0 (Z.min (-1) (Z.of_nat (length (layers st)))) = 0%Z
  /\ map id (layers st') = ["rect-1"; "ellipse-1"]
  /\ id <$> layers st' !! 0%nat = Some "rect-1"
  /\ id <$> layers st' !! 1%nat = Some (id ellipse_layer)
  /\ notified st' = [layer_added].
Proof. cbv zeta. repeat split; vm_compute; reflexivity. Qed.

(** C5 (amended).  [add(layer, index)] puts the layer at position
    [min(index, length)] when [index >= 0], and appends it (position
    [length]) when the index is negative or absent; the layers before that
    position keep their place, those from it on move up by one; the layer
    is stored as passed, and a layer-added notification fires in every
    case. *)
Theorem C5_add_inserts_in_range_or_appends layer index st :
  let ls := layers st in
  let pos :=
    match index with
    | Some i =>
        if (0 <=? i)%Z then Z.to_nat (Z.min i (Z.of_nat (length ls)))
        else length ls
    | None => length ls
    end in
  add layer index st
  = (Returned tt,
     mkStack (take pos ls ++ toMutable layer :: drop pos ls)
       (notified st ++ [layer_added]) (random_calls st))
  /\ (take pos ls ++ toMutable layer :: drop pos ls) !! pos
     = Some (toMutable layer)
  /\ toMutable layer = layer.
Proof.
  cbv zeta.
  set (pos := match index with
              | Some i =>
                  if (0 <=? i)%Z
                  then Z.to_nat (Z.min i (Z.of_nat (length (layers st))))
                  else length (layers st)
              | None => length (layers st)
              end).
  assert (Hpos : (pos <= length (layers st))%nat).
  { subst pos. destruct index as [i|]; [|lia].
    destruct (0 <=? i)%Z; lia. }
  split; [|split].
  - rewrite add_spec. f_equal. f_equal. subst pos.
    destruct index as [i|]; [|apply append_is_insert_at_end].
    destruct (Z.leb_spec 0 i) as [Hlo|Hlo]; cbn [andb].
    + destruct (Z.leb_spec i (Z.of_nat (length (layers st)))) as [Hhi|Hhi].
      * replace (Z.to_nat (Z.min i (Z.of_nat (length (layers st)))))
          with (Z.to_nat i) by lia.
        reflexivity.
      * replace (Z.to_nat (Z.min i (Z.of_nat (length (layers st)))))
          with (length (layers st)) by lia.
        apply append_is_insert_at_end.
    + apply append_is_insert_at_end.
  - apply (insert_at_lookup pos (toMutable layer) (layers st) Hpos).
  - apply toMutable_same.
Qed.

(** ** Deep cloning *)

Arguments uuid : simpl never.

Lemma deepCloneLayer_unfold rnd layer n :
  deepCloneLayer rnd layer n =
  let '(newId, n1) := uuid rnd n in
  let '(kids', n2) :=
    match children layer with
    | Some cs =>
        let '(cs', n') := map_threaded (deepCloneLayer rnd) cs n1 in
        (Some cs', n')
    | None => (None, n1)
    end in
  (mkDesignLayer newId (type layer) (name layer ++ " copy")%string
     (visible layer) (locked layer) (opacity layer) (blendMode layer)
     (transform layer) (properties layer) kids',
   n2).
Proof. destruct layer; reflexivity. Qed.

Lemma draw_uuids_app rnd a b n :
  draw_uuids rnd (a + b) n =
  let '(us, n1) := draw_uuids rnd a n in
  let '(vs, n2) := draw_uuids rnd b n1 in
  (us ++ vs, n2).
Proof.
  revert n. induction a as [|a IH]; intros n; cbn.
  - destruct (draw_uuids rnd b n); reflexivity.
  - destruct (uuid rnd n) as [u n1]. rewrite IH.
    destruct (draw_uuids rnd a n1) as [us n2].
    destruct (draw_uuids rnd b n2) as [vs n3]. reflexivity.
Qed.

Lemma draw_uuids_length rnd k n : length (fst (draw_uuids rnd k n)) = k.
Proof.
  revert n. induction k as [|k IH]; intros n; cbn; [reflexivity|].
  destruct (uuid rnd n) as [u n1]. specialize (IH n1).
  destruct (draw_uuids rnd k n1) as [us n2]. cbn in *. lia.
Qed.

Lemma clone_children_correct rnd cs :
  Forall (clone_correct rnd) cs ->
  forall n,
    map name
      (concat (map subtree (fst (map_threaded (deepCloneLayer rnd) cs n))))
    = map (fun l => (name l ++ " copy")%string) (concat (map subtree cs))
    /\ (map id
          (concat (map subtree (fst (map_threaded (deepCloneLayer rnd) cs n)))),
        snd (map_threaded (deepCloneLayer rnd) cs n))
       = draw_uuids rnd (length (concat (map subtree cs))) n.
Proof.
  induction 1 as [|c rest Hc _ IH]; intros n; [split; reflexivity|].
  cbn [map_threaded map concat].
  destruct (Hc n) as [Hnames Hids].
  destruct (deepCloneLayer rnd c n) as [c' n1]. cbn [fst snd] in Hnames, Hids.
  destruct (IH n1) as [Hnames' Hids'].
  destruct (map_threaded (deepCloneLayer rnd) rest n1) as [rest' n2].
  cbn [fst snd map concat] in *.
  rewrite !map_app, Hnames, Hnames'. split; [reflexivity|].
  rewrite length_app, draw_uuids_app, <- Hids, <- Hids'. reflexivity.
Qed.

Lemma deepCloneLayer_correct rnd layer : clone_correct rnd layer.
Proof.
  induction layer as [i ty nm vis lk op bm tr props kids IH]
    using DesignLayer_tree_ind.
  intros n. rewrite deepCloneLayer_unfold.
  cbn [children name subtree length draw_uuids].
  destruct (uuid rnd n) as [u n1].
  destruct kids as [cs|].
  - cbn in IH. destruct (clone_children_correct rnd cs IH n1)
      as [Hnames Hids].
    destruct (map_threaded (deepCloneLayer rnd) cs n1) as [cs' n2].
    cbn [fst snd subtree children map id name] in *.
    rewrite Hnames, <- Hids. split; reflexivity.
  - split; reflexivity.
Qed.

Lemma deepCloneLayer_name rnd layer n :
  name (fst (deepCloneLayer rnd layer n)) = (name layer ++ " copy")%string.
Proof.
  rewrite deepCloneLayer_unfold. destruct (uuid rnd n) as [u n1].
  destruct (children layer) as [cs|]; [|reflexivity].
  destruct (map_threaded (deepCloneLayer rnd) cs n1). reflexivity.
Qed.

Lemma subtree_head layer : exists rest, subtree layer = layer :: rest.
Proof. destruct layer. eexists. reflexivity. Qed.

Lemma duplicate_first rnd layerId st k original :
  layers st !! k = Some original -> id original = layerId ->
  (forall j l', (j < k)%nat -> layers st !! j = Some l' -> id l' <> layerId) ->
  duplicate rnd layerId st
  = (Returned (id (fst (deepCloneLayer rnd original (random_calls st)))),
     mkStack
       (take (S k) (layers st)
        ++ fst (deepCloneLayer rnd original (random_calls st))
           :: drop (S k) (layers st))
       (notified st ++ [layer_added])
       (snd (deepCloneLayer rnd original (random_calls st)))).
Proof.
  intros Hk Hid Hfirst. unfold duplicate, bind.
  rewrite (findIndex_first _ _ _ _ Hk Hid Hfirst), (layer_at_lookup _ _ _ Hk).
  unfold clone_layer.
  destruct (deepCloneLayer rnd original (random_calls st)) as [clone n'].
  unfold splice, bind, get_layers. cbv beta iota. cbn [layers fst snd].
  replace (Z.of_nat k + 1)%Z with (Z.of_nat (S k)) by lia.
  rewrite Array_splice_insert
    by (apply lookup_lt_Some in Hk; lia).
  reflexivity.
Qed.

(** C4 (counterexample).  Duplicating the group "Group", whose child is
    named "Ellipse", yields a clone whose child is named "Ellipse copy":
    the descendant's name is changed too. *)
Lemma C4_cloned_child_is_renamed :
  let st' := snd (duplicate zero_random "group-1" sample_stack) in
  map (fun l => map name (subtree l)) (layers sample_stack)
  = [["Group"; "Ellipse"]; ["Rect"]]
  /\ map (fun l => map name (subtree l)) (layers st')
     = [["Group"; "Ellipse"]; ["Group copy"; "Ellipse copy"]; ["Rect"]]
  /\ "Ellipse copy" <> "Ellipse".
Proof.
  cbv zeta. split; [|split]; [vm_compute; reflexivity .. | discriminate].
Qed.

(** C4 (amended).  [duplicate(id)] appends " copy" to the name of every
    node of the cloned subtree: the clone inserted after the original and
    each of its descendants carry the name of the node they were cloned
    from followed by " copy". *)
Theorem C4_duplicate_renames_every_cloned_node rnd st layerId k original :
  layers st !! k = Some original -> id original = layerId ->
  (forall j l', (j < k)%nat -> layers st !! j = Some l' -> id l' <> layerId) ->
  exists clone st',
    duplicate rnd layerId st = (Returned (id clone), st')
    /\ layers st' !! S k = Some clone
    /\ map name (subtree clone)
       = map (fun l => (name l ++ " copy")%string) (subtree original).
Proof.
  intros Hk Hid Hfirst.
  exists (fst (deepCloneLayer rnd original (random_calls st))).
  eexists. split; [apply (duplicate_first _ _ _ _ _ Hk Hid Hfirst)|].
  split.
  - cbn [layers]. apply insert_at_lookup.
    apply lookup_lt_Some in Hk. lia.
  - apply deepCloneLayer_correct.
Qed.

Lemma C4_duplicate_renames_every_cloned_node_witness :
  exists clone st',
    duplicate zero_random "group-1" sample_stack = (Returned (id clone), st')
    /\ layers st' !! 1%nat = Some clone
    /\ map name (subtree clone) = ["Group copy"; "Ellipse copy"].
Proof.
  destruct (C4_duplicate_renames_every_cloned_node zero_random sample_stack
              "group-1" 0 half_group eq_refl eq_refl)
    as (clone & st' & Hdup & Hat & Hnames).
  - intros j l' Hj. lia.
  - exists clone, st'. split; [exact Hdup|]. split; [exact Hat|].
    rewrite Hnames. reflexivity.
Defined.

(** C9 (counterexample).  With a random source that returns 0 on every
    call, [uuid()] is "00000000-0000-4000-8000-000000000000"; duplicating a
    layer that already carries this id returns the original's own id, and
    the stack then holds two layers with it. *)
Lemma C9_duplicate_can_return_the_original_id :
  let st := createLayerStack [zero_layer] in
  id zero_layer = zero_uuid
  /\ fst (duplicate zero_random zero_uuid st) = Returned (id zero_layer)
  /\ map id (layers (snd (duplicate zero_random zero_uuid st)))
     = [zero_uuid; zero_uuid].
Proof. cbv zeta. repeat split; vm_compute; reflexivity. Qed.

(** C9 (amended).  For the first top-level layer carrying the id,
    [duplicate(id)] returns the clone's id, leaves the original at its
    index, inserts the clone at the next index with the later layers moved
    up by one, names the clone after the original with " copy" appended,
    and fires exactly one layer-added notification.  The ids of the clone
    and of its descendants are the UUIDs drawn for them, in order; provided
    none of these UUIDs is an id of the original subtree, the returned id
    differs from the original's and every cloned node's id differs from
    the id of the node it was cloned from. *)
Theorem C9_duplicate_inserts_clone_after_original
    rnd st layerId k original :
  layers st !! k = Some original -> id original = layerId ->
  (forall j l', (j < k)%nat -> layers st !! j = Some l' -> id l' <> layerId) ->
  exists clone st',
    duplicate rnd layerId st = (Returned (id clone), st')
    /\ layers st' !! k = Some original
    /\ layers st' !! S k = Some clone
    /\ (forall j, (j < k)%nat -> layers st' !! j = layers st !! j)
    /\ (forall j, (S k <= j)%nat -> layers st' !! S j = layers st !! j)
    /\ name clone = (name original ++ " copy")%string
    /\ notified st' = notified st ++ [layer_added]
    /\ map id (subtree clone)
       = fst (draw_uuids rnd (length (subtree original)) (random_calls st))
    /\ (Forall (fun u => u ∉ map id (subtree original))
          (fst (draw_uuids rnd (length (subtree original)) (random_calls st)))
        -> id clone <> id original
           /\ Forall2 (fun source cloned => id cloned <> id source)
                (subtree original) (subtree clone)).
Proof.
  intros Hk Hid Hfirst.
  pose proof (lookup_lt_Some _ _ _ Hk) as Hlen.
  destruct (insert_at_lookup (S k)
              (fst (deepCloneLayer rnd original (random_calls st)))
              (layers st) ltac:(lia)) as (Hat & Hbefore & Hafter).
  destruct (deepCloneLayer_correct rnd original (random_calls st))
    as [Hnames Hids].
  assert (Hdraw : map id (subtree (fst (deepCloneLayer rnd original
                                          (random_calls st))))
                  = fst (draw_uuids rnd (length (subtree original))
                           (random_calls st))).
  { rewrite <- Hids. reflexivity. }
  exists (fst (deepCloneLayer rnd original (random_calls st))).
  eexists. split; [apply (duplicate_first _ _ _ _ _ Hk Hid Hfirst)|].
  cbn [layers notified].
  split; [rewrite Hbefore by lia; exact Hk|].
  split; [exact Hat|].
  split; [intros j Hj; apply Hbefore; lia|].
  split; [intros j Hj; apply Hafter; lia|].
  split; [apply deepCloneLayer_name|].
  split; [reflexivity|].
  split; [exact Hdraw|].
  intros Hfresh. rewrite <- Hdraw in Hfresh.
  assert (Hpair : Forall2 (fun source cloned => id cloned <> id source)
                    (subtree original)
                    (subtree (fst (deepCloneLayer rnd original
                                     (random_calls st))))).
  { apply Forall2_same_length_lookup. split.
    - apply (f_equal length) in Hdraw.
      rewrite length_map, draw_uuids_length in Hdraw. symmetry. exact Hdraw.
    - intros i source cloned Hs Hc Heq.
      rewrite Forall_forall in Hfresh.
      apply (Hfresh (id cloned)).
      + apply list_elem_of_fmap. exists cloned. split; [reflexivity|].
        apply list_elem_of_lookup_2 in Hc. exact Hc.
      + rewrite Heq. apply list_elem_of_fmap. exists source.
        split; [reflexivity|]. apply list_elem_of_lookup_2 in Hs. exact Hs. }
  split; [|exact Hpair].
  destruct (subtree_head original) as [rest Hs].
  destruct (subtree_head (fst (deepCloneLayer rnd original (random_calls st))))
    as [rest' Hc].
  rewrite Hs, Hc in Hpair.
  apply Forall2_cons_1 in Hpair as [Hhead _]. exact Hhead.
Qed.

Lemma C9_duplicate_inserts_clone_after_original_witness :
  exists clone st',
    duplicate zero_random "group-1" sample_stack = (Returned (id clone), st')
    /\ layers st' !! 0%nat = Some half_group
    /\ layers st' !! 1%nat = Some clone
    /\ name clone = "Group copy"
    /\ notified st' = [layer_added]
    /\ id clone <> id half_group
    /\ Forall2 (fun source cloned => id cloned <> id source)
         (subtree half_group) (subtree clone).
Proof.
  destruct (C9_duplicate_inserts_clone_after_original zero_random sample_stack
              "group-1" 0 half_group eq_refl eq_refl)
    as (clone & st' & Hdup & Horig & Hat & _ & _ & Hname & Hnote & _ & Hfresh).
  - intros j l' Hj. lia.
  - exists clone, st'.
    destruct Hfresh as [Hid Hpair].
    { apply (bool_decide_unpack _). vm_compute. exact I. }
    repeat split; assumption.
Defined.

(** * Further properties of the compositor *)

Lemma count_calls_app p cs1 cs2 :
  count_calls p (cs1 ++ cs2) = (count_calls p cs1 + count_calls p cs2)%nat.
Proof.
  induction cs1 as [|c rest IH]; [reflexivity|].
  cbn [app count_calls]. rewrite IH. lia.
Qed.

Lemma transform_calls_are_plain ops :
  count_calls is_save (map call_of ops) = 0%nat
  /\ count_calls is_restore (map call_of ops) = 0%nat
  /\ count_calls is_drawImage (map call_of ops) = 0%nat
  /\ render_args (map call_of ops) = [].
Proof.
  induction ops as [|op rest (Hs & Hr & Hd & Ha)]; [repeat split|].
  destruct op; cbn [map call_of count_calls is_save is_restore is_drawImage];
    rewrite Hs, Hr, Hd; repeat split; exact Ha.
Qed.

Lemma leaf_calls_shape reg lt layer ctx :
  reg (type layer) = Some lt ->
  count_calls is_save (leaf_calls lt layer ctx) = 1%nat
  /\ count_calls is_restore (leaf_calls lt layer ctx) = 1%nat
  /\ count_calls is_drawImage (leaf_calls lt layer ctx) = 0%nat
  /\ render_args (leaf_calls lt layer ctx) = [node_args reg layer].
Proof.
  intros Hreg. unfold leaf_calls, node_args.
  destruct (transform_calls_are_plain (leaf_transform (transform layer)))
    as (Hs & Hr & Hd & Ha).
  rewrite !count_calls_app, Hs, Hr, Hd. unfold render_args in *.
  rewrite !omap_app, Ha, Hreg. repeat split.
Qed.

Lemma enterGroup_spec layer ctx :
  enterGroup layer ctx
  = mkCtx (mkDrawState (globalAlpha (state ctx) * opacity layer)
             (toCompositeOp (blendMode layer))
             (currentTransform (state ctx)))
      (state ctx :: saved ctx)
      (calls ctx
       ++ [CallSave;
           SetGlobalAlpha (globalAlpha (state ctx) * opacity layer);
           SetGlobalCompositeOperation (toCompositeOp (blendMode layer))]).
Proof.
  destruct ctx as [[alpha op tr] sv cs].
  cbv [enterGroup set_globalCompositeOperation set_globalAlpha ctx_save log
       state saved calls globalAlpha globalCompositeOperation
       currentTransform].
  repeat rewrite <- app_assoc. reflexivity.
Qed.

Lemma well_framed_refl reg nodes ctx : well_framed reg nodes ctx ctx.
Proof.
  exists []. rewrite app_nil_r. destruct ctx. repeat split.
  apply sublist_nil_l.
Qed.

Lemma compositeLayers_framed reg ig cs :
  Forall (fun c => forall ctx,
            well_framed reg (subtree c) ctx (compositeLayer reg ig c ctx)) cs ->
  forall ctx,
    well_framed reg (concat (map subtree cs)) ctx
      (compositeLayers reg ig cs ctx).
Proof.
  induction 1 as [|c rest Hc _ IH]; intros ctx; [apply well_framed_refl|].
  rewrite compositeLayers_cons. cbn [map concat].
  destruct (Hc ctx) as (em1 & -> & Hbal1 & Hdraw1 & Hsub1).
  destruct (IH (mkCtx (state ctx) (saved ctx) (calls ctx ++ em1)))
    as (em2 & -> & Hbal2 & Hdraw2 & Hsub2).
  exists (em1 ++ em2). cbn [state saved calls].
  rewrite <- app_assoc, !count_calls_app, Hbal1, Hbal2, Hdraw1, Hdraw2.
  repeat split. unfold render_args in *. rewrite omap_app, map_app.
  apply sublist_app; assumption.
Qed.

Lemma compositeLayer_framed reg ig layer :
  forall ctx,
    well_framed reg (subtree layer) ctx (compositeLayer reg ig layer ctx).
Proof.
  induction layer as [i ty nm vis lk op bm tr props kids IH]
    using DesignLayer_tree_ind.
  intros ctx. rewrite compositeLayer_unfold.
  cbn [visible type children].
  destruct vis; cbn [negb]; [|apply well_framed_refl].
  destruct (negb ig && is_guide (reg ty)); [apply well_framed_refl|].
  set (layer := mkDesignLayer i ty nm true lk op bm tr props kids) in *.
  assert (Hleaf : forall ctx',
             well_framed reg (subtree layer) ctx'
               match reg ty with
               | Some lt => renderLeaf lt layer ctx'
               | None => ctx'
               end).
  { intros ctx'. destruct (reg ty) as [lt|] eqn:Hreg;
      [|apply well_framed_refl].
    rewrite renderLeaf_spec.
    destruct (leaf_calls_shape reg lt layer ctx' Hreg) as (Hs & Hr & Hd & Ha).
    exists (leaf_calls lt layer ctx'). rewrite Hs, Hr, Hd, Ha.
    repeat split. cbn [subtree map]. apply sublist_skip, sublist_nil_l. }
  destruct kids as [[|c cs]|]; try apply Hleaf.
  cbn [Forall_children] in IH.
  destruct (compositeLayers_framed reg ig (c :: cs) IH (enterGroup layer ctx))
    as (em & Hem & Hbal & Hdraw & Hsub).
  rewrite Hem, enterGroup_spec. cbn [state saved calls].
  exists ([CallSave;
           SetGlobalAlpha (globalAlpha (state ctx) * opacity layer);
           SetGlobalCompositeOperation (toCompositeOp (blendMode layer))]
          ++ em ++ [CallRestore]).
  split.
  { unfold ctx_restore, log. cbn [state saved calls].
    repeat rewrite <- app_assoc. reflexivity. }
  rewrite !count_calls_app. cbn [count_calls is_save is_restore is_drawImage].
  split; [lia|]. split; [lia|].
  unfold render_args in *. rewrite !omap_app. cbn [omap list_omap].
  rewrite app_nil_r. change (subtree layer) with (layer :: concat (map subtree (c :: cs))).
  cbn [map]. apply sublist_cons. exact Hsub.
Qed.

Lemma compositeLayers_agree reg1 ig1 reg2 ig2 cs :
  Forall (fun c => forall ctx,
            compositeLayer reg1 ig1 c ctx = compositeLayer reg2 ig2 c ctx) cs ->
  forall ctx,
    compositeLayers reg1 ig1 cs ctx = compositeLayers reg2 ig2 cs ctx.
Proof.
  induction 1 as [|c rest Hc _ IH]; intros ctx; [reflexivity|].
  rewrite !compositeLayers_cons, Hc. apply IH.
Qed.

Lemma compositeDesignLayers_framed layers reg output options :
  well_framed reg (concat (map subtree layers)) (ctx_drawImage 0 0 output)
    (compositeDesignLayers layers reg output options).
Proof.
  unfold compositeDesignLayers. apply compositeLayers_framed, Forall_forall.
  intros c _. apply compositeLayer_framed.
Qed.

Lemma compositeLayers_framed_shown reg ig cs :
  Forall (fun c => forall ctx,
            well_framed reg (shown_nodes c) ctx (compositeLayer reg ig c ctx))
    cs ->
  forall ctx,
    well_framed reg (concat (map shown_nodes cs)) ctx
      (compositeLayers reg ig cs ctx).
Proof.
  induction 1 as [|c rest Hc _ IH]; intros ctx; [apply well_framed_refl|].
  rewrite compositeLayers_cons. cbn [map concat].
  destruct (Hc ctx) as (em1 & -> & Hbal1 & Hdraw1 & Hsub1).
  destruct (IH (mkCtx (state ctx) (saved ctx) (calls ctx ++ em1)))
    as (em2 & -> & Hbal2 & Hdraw2 & Hsub2).
  exists (em1 ++ em2). cbn [state saved calls].
  rewrite <- app_assoc, !count_calls_app, Hbal1, Hbal2, Hdraw1, Hdraw2.
  repeat split. unfold render_args in *. rewrite omap_app, map_app.
  apply sublist_app; assumption.
Qed.

Lemma compositeLayer_framed_shown reg ig layer :
  forall ctx,
    well_framed reg (shown_nodes layer) ctx (compositeLayer reg ig layer ctx).
Proof.
  induction layer as [i ty nm vis lk op bm tr props kids IH]
    using DesignLayer_tree_ind.
  intros ctx. rewrite compositeLayer_unfold.
  cbn [visible type children].
  destruct vis; cbn [negb]; [|apply well_framed_refl].
  destruct (negb ig && is_guide (reg ty)); [apply well_framed_refl|].
  set (layer := mkDesignLayer i ty nm true lk op bm tr props kids) in *.
  assert (Hleaf : forall ctx',
             well_framed reg (shown_nodes layer) ctx'
               match reg ty with
               | Some lt => renderLeaf lt layer ctx'
               | None => ctx'
               end).
  { intros ctx'. destruct (reg ty) as [lt|] eqn:Hreg;
      [|apply well_framed_refl].
    rewrite renderLeaf_spec.
    destruct (leaf_calls_shape reg lt layer ctx' Hreg) as (Hs & Hr & Hd & Ha).
    exists (leaf_calls lt layer ctx'). rewrite Hs, Hr, Hd, Ha.
    repeat split. cbn [shown_nodes visible map].
    apply sublist_skip, sublist_nil_l. }
  destruct kids as [[|c cs]|]; try apply Hleaf.
  cbn [Forall_children] in IH.
  destruct (compositeLayers_framed_shown reg ig (c :: cs) IH
              (enterGroup layer ctx))
    as (em & Hem & Hbal & Hdraw & Hsub).
  rewrite Hem, enterGroup_spec. cbn [state saved calls].
  exists ([CallSave;
           SetGlobalAlpha (globalAlpha (state ctx) * opacity layer);
           SetGlobalCompositeOperation (toCompositeOp (blendMode layer))]
          ++ em ++ [CallRestore]).
  split.
  { unfold ctx_restore, log. cbn [state saved calls].
    repeat rewrite <- app_assoc. reflexivity. }
  rewrite !count_calls_app. cbn [count_calls is_save is_restore is_drawImage].
  split; [lia|]. split; [lia|].
  unfold render_args in *. rewrite !omap_app. cbn [omap list_omap].
  rewrite app_nil_r.
  change (shown_nodes layer)
    with (layer :: concat (map shown_nodes (c :: cs))).
  cbn [map]. apply sublist_cons. exact Hsub.
Qed.

(** C8.  Compositing a layer whose [visible] flag is false leaves the
    drawing context exactly as it was: no call at all is made for it, so
    none for its descendants either, whatever their own flags.  This holds
    at every depth.  Dropping the children of every invisible layer of a
    tree changes nothing in what compositing the tree does; and the render
    calls made while compositing any layer list are given, in call order,
    a subsequence of the nodes that are visible and have only visible
    ancestors: no render call is made for an invisible layer, top-level or
    nested, nor for anything below one. *)
Theorem C8_invisible_layers_are_skipped reg options :
  (forall layer ctx,
     visible layer = false ->
     compositeLayer reg (includeGuides_of options) layer ctx = ctx)
  /\ (forall layers output,
        compositeDesignLayers (map drop_hidden_children layers) reg output
          options
        = compositeDesignLayers layers reg output options)
  /\ (forall layers output,
        exists emitted,
          calls (compositeDesignLayers layers reg output options)
          = calls output ++ CallDrawImage 0 0 :: emitted
          /\ render_args emitted
             `sublist_of` map (node_args reg)
                            (concat (map shown_nodes layers))).
Proof.
  split; [|split].
  - intros layer ctx Hvis. rewrite compositeLayer_unfold, Hvis. reflexivity.
  - intros layers output. unfold compositeDesignLayers.
    apply compositeLayers_map_ext, Forall_forall.
    intros c _. apply drop_hidden_children_composite.
  - intros layers output.
    destruct (compositeLayers_framed_shown reg (includeGuides_of options)
                layers
                ltac:(apply Forall_forall; intros c _;
                      apply compositeLayer_framed_shown)
                (ctx_drawImage 0 0 output))
      as (em & Hem & _ & _ & Hsub).
    exists em. split; [|exact Hsub].
    unfold compositeDesignLayers. rewrite Hem.
    unfold ctx_drawImage, log. cbn [state saved calls].
    rewrite <- app_assoc. reflexivity.
Qed.

Lemma C8_invisible_layers_are_skipped_witness :
  compositeLayer sample_registry false hidden_group fresh_ctx = fresh_ctx
  /\ exists emitted,
       calls (compositeDesignLayers [mixed_group; hidden_group]
                sample_registry fresh_ctx None)
       = calls fresh_ctx ++ CallDrawImage 0 0 :: emitted
       /\ render_args emitted
          `sublist_of` [node_args sample_registry mixed_group;
                        node_args sample_registry rect_layer].
Proof.
  destruct (C8_invisible_layers_are_skipped sample_registry None)
    as (Hroot & _ & Hnested).
  split; [exact (Hroot hidden_group fresh_ctx eq_refl)|].
  exact (Hnested [mixed_group; hidden_group] fresh_ctx).
Defined.

(** X1.  Compositing any layer list draws the base image exactly once, as
    the first call; after it, every [save] is paired with a [restore] and
    the drawing context ends in the state and with the save stack it
    started with. *)
Theorem composite_draws_base_first_and_restores_context
    layers reg output options :
  exists emitted,
    compositeDesignLayers layers reg output options
    = mkCtx (state output) (saved output)
        (calls output ++ CallDrawImage 0 0 :: emitted)
    /\ count_calls is_drawImage emitted = 0%nat
    /\ count_calls is_save emitted = count_calls is_restore emitted.
Proof.
  destruct (compositeDesignLayers_framed layers reg output options)
    as (em & Hem & Hbal & Hdraw & _).
  exists em. split; [|split; assumption].
  rewrite Hem. unfold ctx_drawImage, log. cbn [state saved calls].
  rewrite <- app_assoc. reflexivity.
Qed.

(** X2.  The render calls made while compositing a layer follow the tree:
    what they were given (resolved type, properties, untransformed bounds,
    composite operation of the node's own blend mode) is, in call order, a
    subsequence of the tree's nodes listed parent first, children left to
    right.  No render call is made for anything that is not a node of the
    tree, none is repeated, and none is out of order. *)
Theorem render_calls_follow_tree_order reg ig layer ctx :
  exists emitted,
    calls (compositeLayer reg ig layer ctx) = calls ctx ++ emitted
    /\ render_args emitted `sublist_of` map (node_args reg) (subtree layer).
Proof.
  destruct (compositeLayer_framed reg ig layer ctx)
    as (em & Hem & _ & _ & Hsub).
  exists em. rewrite Hem. split; [reflexivity | exact Hsub].
Qed.

Lemma scope_calls_render_nothing cs :
  Forall (fun c => is_scope_call c = true) cs -> render_args cs = [].
Proof.
  induction 1 as [|c rest Hc _ IH]; [reflexivity|].
  unfold render_args in *. cbn [omap list_omap].
  destruct c; try discriminate Hc; exact IH.
Qed.

Lemma unresolved_layers_scope_calls reg ig cs :
  Forall (fun c => forall ctx,
            exists emitted,
              compositeLayer reg ig c ctx
              = mkCtx (state ctx) (saved ctx) (calls ctx ++ emitted)
              /\ Forall (fun call => is_scope_call call = true) emitted) cs ->
  forall ctx,
    exists emitted,
      compositeLayers reg ig cs ctx
      = mkCtx (state ctx) (saved ctx) (calls ctx ++ emitted)
      /\ Forall (fun call => is_scope_call call = true) emitted.
Proof.
  induction 1 as [|c rest Hc _ IH]; intros ctx.
  - exists []. rewrite app_nil_r. destruct ctx. split; [reflexivity|].
    constructor.
  - rewrite compositeLayers_cons.
    destruct (Hc ctx) as (em1 & -> & Hs1).
    destruct (IH (mkCtx (state ctx) (saved ctx) (calls ctx ++ em1)))
      as (em2 & -> & Hs2).
    exists (em1 ++ em2). cbn [state saved calls]. rewrite <- app_assoc.
    split; [reflexivity|]. apply Forall_app. split; assumption.
Qed.

Lemma unresolved_layer_scope_calls reg ig layer :
  (forall typeId, reg typeId = None) ->
  forall ctx,
    exists emitted,
      compositeLayer reg ig layer ctx
      = mkCtx (state ctx) (saved ctx) (calls ctx ++ emitted)
      /\ Forall (fun call => is_scope_call call = true) emitted.
Proof.
  intros Hnone.
  assert (Hnothing : forall ctx : Ctx,
             exists emitted,
               ctx = mkCtx (state ctx) (saved ctx) (calls ctx ++ emitted)
               /\ Forall (fun call => is_scope_call call = true) emitted).
  { intros ctx. exists []. rewrite app_nil_r. destruct ctx.
    split; [reflexivity | constructor]. }
  induction layer as [i ty nm vis lk op bm tr props kids IH]
    using DesignLayer_tree_ind.
  intros ctx. rewrite compositeLayer_unfold. cbn [visible type children].
  destruct vis; cbn [negb]; [|apply Hnothing].
  destruct (negb ig && is_guide (reg ty)); [apply Hnothing|].
  rewrite Hnone.
  destruct kids as [[|c cs]|]; try apply Hnothing.
  cbn [Forall_children] in IH.
  set (layer := mkDesignLayer i ty nm true lk op bm tr props
                  (Some (c :: cs))).
  destruct (unresolved_layers_scope_calls reg ig (c :: cs) IH
              (enterGroup layer ctx)) as (em & Hem & Hscope).
  rewrite Hem, enterGroup_spec. cbn [state saved calls].
  exists ([CallSave;
           SetGlobalAlpha (globalAlpha (state ctx) * opacity layer);
           SetGlobalCompositeOperation (toCompositeOp (blendMode layer))]
          ++ em ++ [CallRestore]).
  split.
  - unfold ctx_restore, log. cbn [state saved calls].
    repeat rewrite <- app_assoc. reflexivity.
  - repeat (apply Forall_cons; split; [reflexivity|]).
    apply Forall_app. split; [exact Hscope|].
    apply Forall_cons. split; [reflexivity | constructor].
Qed.

(** X3.  With a registry that resolves no type (no plugin loaded),
    compositing makes no render call at all, whatever the layers: after
    the base image, all that is logged is what groups do around their
    children (save, opacity, blend mode, restore); no transform call and
    no render call is made. *)
Theorem nothing_renders_without_layer_types layers reg output options :
  (forall typeId, reg typeId = None) ->
  exists emitted,
    calls (compositeDesignLayers layers reg output options)
    = calls output ++ CallDrawImage 0 0 :: emitted
    /\ render_args emitted = []
    /\ Forall (fun call => is_scope_call call = true) emitted.
Proof.
  intros Hnone.
  destruct (unresolved_layers_scope_calls reg (includeGuides_of options)
              layers
              ltac:(apply Forall_forall; intros c _;
                    apply unresolved_layer_scope_calls, Hnone)
              (ctx_drawImage 0 0 output)) as (em & Hem & Hscope).
  exists em. split; [|split; [apply scope_calls_render_nothing|]; exact Hscope].
  unfold compositeDesignLayers. rewrite Hem.
  unfold ctx_drawImage, log. cbn [state saved calls].
  rewrite <- app_assoc. reflexivity.
Qed.

Lemma toCompositeOp_not_normal blendMode : toCompositeOp blendMode <> "normal".
Proof.
  unfold toCompositeOp. destruct (String.eqb_spec blendMode "normal") as [->|Hne];
    [discriminate | exact Hne].
Qed.

(** X4.  No render call is ever made under the composite operation
    "normal" (which the canvas does not know): the operation in force is
    "source-over" for a layer whose blend mode is "normal" and the blend
    mode's own name otherwise. *)
Theorem render_never_under_normal_operation reg ig layer ctx :
  exists emitted,
    calls (compositeLayer reg ig layer ctx) = calls ctx ++ emitted
    /\ Forall (fun args => args.2 <> "normal") (render_args emitted)
    /\ toCompositeOp "normal" = "source-over"
    /\ (forall blendMode,
          blendMode <> "normal" -> toCompositeOp blendMode = blendMode).
Proof.
  destruct (compositeLayer_framed reg ig layer ctx)
    as (em & Hem & _ & _ & Hsub).
  exists em. rewrite Hem. split; [reflexivity|]. split; [|split].
  - apply Forall_forall. intros x Hx.
    assert (Hin : x ∈ map (node_args reg) (subtree layer))
      by (eapply elem_of_sublist; eassumption).
    apply list_elem_of_fmap in Hin as (l & -> & _).
    apply toCompositeOp_not_normal.
  - reflexivity.
  - intros blendMode Hne. unfold toCompositeOp.
    destruct (String.eqb_spec blendMode "normal"); [contradiction|reflexivity].
Qed.

Lemma guide_flag_irrelevant_layer reg layer :
  (forall typeId, is_guide (reg typeId) = false) ->
  forall ctx,
    compositeLayer reg true layer ctx = compositeLayer reg false layer ctx.
Proof.
  intros Hno.
  induction layer as [i ty nm vis lk op bm tr props kids IH]
    using DesignLayer_tree_ind.
  intros ctx. rewrite !compositeLayer_unfold. cbn [visible type children].
  destruct vis; [|reflexivity]. rewrite Hno. cbn [negb andb].
  destruct kids as [[|c cs]|]; try reflexivity.
  cbn [Forall_children] in IH. f_equal.
  apply (compositeLayers_agree reg true reg false (c :: cs) IH).
Qed.

(** X5.  The [includeGuides] option only matters for guide types: when
    the registry resolves no type to the category guide, compositing with
    [includeGuides] true, false or absent gives the same result on every
    layer list. *)
Theorem includeGuides_only_affects_guides layers reg output options1 options2 :
  (forall typeId lt, reg typeId = Some lt -> category lt <> cat_guide) ->
  compositeDesignLayers layers reg output options1
  = compositeDesignLayers layers reg output options2.
Proof.
  intros Hcat.
  assert (Hno : forall typeId, is_guide (reg typeId) = false).
  { intros typeId. unfold is_guide. destruct (reg typeId) as [lt|] eqn:Hreg;
      [|reflexivity].
    specialize (Hcat typeId lt Hreg). destruct (category lt); congruence. }
  assert (Hflag : forall ig1 ig2 ctx,
             compositeLayers reg ig1 layers ctx
             = compositeLayers reg ig2 layers ctx).
  { intros ig1 ig2 ctx. apply compositeLayers_agree, Forall_forall.
    intros c _ ctx'.
    destruct ig1, ig2; try reflexivity;
      [|symmetry]; apply guide_flag_irrelevant_layer, Hno. }
  unfold compositeDesignLayers. apply Hflag.
Qed.

(** X6.  A visible leaf whose type resolves to the category guide is left
    out unless [includeGuides] is explicitly true: with the options
    absent, the flag absent or the flag false, only the base image is
    drawn; with the flag true the guide is rendered like any other leaf
    (save, its opacity and blend mode, its transform, its type's render
    call, restore). *)
Theorem guide_leaf_needs_includeGuides reg layer lt output :
  visible layer = true -> is_leaf layer ->
  reg (type layer) = Some lt -> category lt = cat_guide ->
  let base := mkCtx (state output) (saved output)
                (calls output ++ [CallDrawImage 0 0]) in
  compositeDesignLayers [layer] reg output None = base
  /\ compositeDesignLayers [layer] reg output (Some None) = base
  /\ compositeDesignLayers [layer] reg output (Some (Some false)) = base
  /\ compositeDesignLayers [layer] reg output (Some (Some true))
     = mkCtx (state output) (saved output)
         (calls output
          ++ [CallDrawImage 0 0; CallSave; SetGlobalAlpha (opacity layer);
              SetGlobalCompositeOperation (toCompositeOp (blendMode layer))]
          ++ map call_of (leaf_transform (transform layer))
          ++ [CallRender lt (properties layer) (bounds_of (transform layer))
                (mkDrawState (opacity layer)
                   (toCompositeOp (blendMode layer))
                   (currentTransform (state output)
                    ++ leaf_transform (transform layer)));
              CallRestore]).
Proof.
  intros Hvis Hleaf Hreg Hcat. cbv zeta.
  assert (Hgate : is_guide (reg (type layer)) = true)
    by (rewrite Hreg; unfold is_guide; rewrite Hcat; reflexivity).
  assert (Hoff : compositeLayer reg false layer (ctx_drawImage 0 0 output)
                 = ctx_drawImage 0 0 output).
  { rewrite compositeLayer_unfold, Hvis, Hgate. reflexivity. }
  unfold compositeDesignLayers, compositeLayers.
  cbn [includeGuides_of fold_left]. rewrite Hoff.
  split; [reflexivity|]. split; [reflexivity|]. split; [reflexivity|].
  rewrite compositeLayer_unfold, Hvis, Hgate, Hreg. cbn [negb andb].
  destruct Hleaf as [Hk | Hk]; rewrite Hk;
    rewrite renderLeaf_spec;
    unfold leaf_calls, leaf_state, ctx_drawImage, log;
    cbn [state saved calls]; rewrite <- app_assoc; reflexivity.
Qed.

(** * Further properties of the layer stack *)

Lemma found_at_bound layerId ls k l :
  found_at layerId ls k l -> (k < length ls)%nat.
Proof. intros (Hk & _). apply (lookup_lt_Some _ _ _ Hk). Qed.

Lemma found_at_unique layerId ls k l k' l' :
  found_at layerId ls k l -> found_at layerId ls k' l' -> k = k' /\ l = l'.
Proof.
  intros (Hk & Hid & Hfirst) (Hk' & Hid' & Hfirst').
  assert (k = k') as ->.
  { destruct (Nat.lt_trichotomy k k') as [Hlt | [Heq | Hgt]]; [|assumption|].
    - exfalso. apply (Hfirst' k l Hlt Hk Hid).
    - exfalso. apply (Hfirst k' l' Hgt Hk' Hid'). }
  split; [reflexivity | congruence].
Qed.

Lemma found_at_get layerId st k l :
  found_at layerId (layers st) k l ->
  get layerId st = (Returned (Some l), st).
Proof. intros (Hk & Hid & Hfirst). apply (get_first _ _ _ _ Hk Hid Hfirst). Qed.

Lemma found_at_insert layerId ls k l l' :
  found_at layerId ls k l -> id l' = layerId ->
  found_at layerId (<[k := l']> ls) k l'.
Proof.
  intros Hf Hid'. pose proof (found_at_bound _ _ _ _ Hf) as Hlen.
  destruct Hf as (Hk & Hid & Hfirst). split; [|split].
  - apply list_lookup_insert_eq, Hlen.
  - exact Hid'.
  - intros j l0 Hj Hl0. rewrite list_lookup_insert_ne in Hl0 by lia.
    apply (Hfirst j l0 Hj Hl0).
Qed.

Lemma Array_splice_delete_one {A} (k : nat) (x : A) (l : list A) :
  l !! k = Some x ->
  Array_splice (Z.of_nat k) 1 [] l = ([x], delete k l).
Proof.
  intros Hk. pose proof (lookup_lt_Some _ _ _ Hk) as Hlen.
  unfold Array_splice, splice_start.
  assert (Hneg : (Z.of_nat k <? 0)%Z = false) by (apply Z.ltb_ge; lia).
  rewrite Hneg.
  replace (Z.to_nat (Z.min (Z.of_nat k) (Z.of_nat (length l)))) with k by lia.
  replace (Z.to_nat (Z.min (Z.max 1 0) (Z.of_nat (length l - k)))) with 1%nat
    by lia.
  rewrite (drop_S _ _ _ Hk), delete_take_drop.
  replace (k + 1)%nat with (S k) by lia. reflexivity.
Qed.

Lemma remove_found layerId st k l :
  found_at layerId (layers st) k l ->
  remove layerId st
  = (Returned true,
     mkStack (delete k (layers st)) (notified st ++ [layer_removed])
       (random_calls st)).
Proof.
  intros (Hk & Hid & Hfirst). unfold remove, bind, get_layers.
  cbv beta iota.
  rewrite (proj1 (first_findIndex _ _ _ _ Hk Hid Hfirst)).
  destruct (Z.eqb_spec (Z.of_nat k) (-1)) as [Heq|_]; [lia|].
  unfold splice, bind, get_layers. cbv beta iota.
  rewrite (Array_splice_delete_one k l (layers st) Hk). reflexivity.
Qed.

Lemma lookup_delete_list {A} (l : list A) k :
  (forall j, (j < k)%nat -> delete k l !! j = l !! j)
  /\ (forall j, (k <= j)%nat -> delete k l !! j = l !! S j).
Proof.
  split; intros j Hj.
  - apply list_lookup_delete_lt. exact Hj.
  - apply list_lookup_delete_ge. exact Hj.
Qed.

(** X7.  [remove(id)] on a present id deletes the first top-level layer
    with that id and nothing else: it returns true, notifies
    layer-removed once, the layers before keep their index and the layers
    after move down by one.  When no later layer carries the id, [get(id)]
    afterwards returns null. *)
Theorem remove_deletes_first_match layerId st k l :
  found_at layerId (layers st) k l ->
  let st' := mkStack (delete k (layers st)) (notified st ++ [layer_removed])
               (random_calls st) in
  remove layerId st = (Returned true, st')
  /\ S (length (layers st')) = length (layers st)
  /\ (forall j, (j < k)%nat -> layers st' !! j = layers st !! j)
  /\ (forall j, (k <= j)%nat -> layers st' !! j = layers st !! S j)
  /\ ((forall j l', (k < j)%nat -> layers st !! j = Some l' ->
                    id l' <> layerId) ->
      get layerId st' = (Returned None, st')).
Proof.
  intros Hf. cbv zeta. cbn [layers].
  pose proof (found_at_bound _ _ _ _ Hf) as Hlen.
  destruct (lookup_delete_list (layers st) k) as [Hlt Hge].
  split; [apply (remove_found _ _ _ _ Hf)|].
  split; [rewrite length_delete by (destruct Hf as (Hk & _); eauto); lia|].
  split; [exact Hlt|]. split; [exact Hge|].
  intros Hlater. apply get_absent. cbn [layers].
  intros Hin. apply list_elem_of_fmap in Hin as (l' & Hid' & Hl').
  apply list_elem_of_lookup_1 in Hl' as [j Hj].
  destruct Hf as (Hk & Hid & Hfirst).
  destruct (Nat.lt_ge_cases j k) as [Hjk|Hjk].
  - rewrite Hlt in Hj by exact Hjk. apply (Hfirst j l' Hjk Hj). congruence.
  - rewrite Hge in Hj by exact Hjk. apply (Hlater (S j) l'); [lia|exact Hj|].
    congruence.
Qed.

Lemma delete_inserted {A} (i : nat) (x : A) (d : list A) :
  (i <= length d)%nat -> delete i (take i d ++ x :: drop i d) = d.
Proof.
  intros Hi.
  assert (Hlen : length (take i d) = i) by (rewrite length_take; lia).
  rewrite delete_take_drop.
  rewrite take_app_length' by (symmetry; exact Hlen).
  rewrite (cons_middle x (take i d)), app_assoc.
  rewrite drop_app_length' by (rewrite length_app, Hlen; cbn; lia).
  apply take_drop.
Qed.

Lemma delete_then_cons_perm {A} (k : nat) (x : A) (l : list A) :
  l !! k = Some x -> x :: delete k l ≡ₚ l.
Proof.
  intros Hk. rewrite delete_take_drop.
  rewrite <- (take_drop_middle l k x Hk) at 3.
  apply Permutation_middle.
Qed.

Lemma reorder_found layerId newIndex st k l :
  found_at layerId (layers st) k l ->
  reorder layerId newIndex st
  = if decide (k = clamped_index newIndex (layers st))
    then (Returned tt, st)
    else (Returned tt,
          mkStack
            (take (clamped_index newIndex (layers st)) (delete k (layers st))
             ++ l :: drop (clamped_index newIndex (layers st))
                       (delete k (layers st)))
            (notified st ++ [layer_reordered]) (random_calls st)).
Proof.
  intros Hf. pose proof (found_at_bound _ _ _ _ Hf) as Hlen.
  destruct Hf as (Hk & Hid & Hfirst).
  unfold reorder, bind. rewrite (findIndex_first _ _ _ _ Hk Hid Hfirst).
  unfold get_layers. cbv beta iota.
  unfold clamped_index.
  set (clamped := Z.max 0 (Z.min newIndex (Z.of_nat (length (layers st)) - 1))).
  assert (Hc : clamped = Z.of_nat (Z.to_nat clamped)) by (subst clamped; lia).
  destruct (Z.eqb_spec (Z.of_nat k) clamped) as [Heq|Hne].
  - rewrite decide_True by lia. reflexivity.
  - rewrite decide_False by lia.
    unfold splice, bind, get_layers. cbv beta iota.
    rewrite (Array_splice_delete_one k l (layers st) Hk).
    unfold put_layers, ret. cbv beta iota. cbn [layers take].
    pose proof (Array_splice_insert (Z.to_nat clamped) l
                  (delete k (layers st))) as Hsplice.
    rewrite <- Hc in Hsplice. rewrite Hsplice; [reflexivity|].
    rewrite length_delete by eauto. subst clamped. lia.
Qed.

(** X8.  [reorder(id, newIndex)] moves the first layer with the id to the
    index [max(0, min(newIndex, length - 1))].  When that is where the
    layer already is, nothing changes and nothing is notified.  Otherwise
    the layer ends up exactly at that index, the other layers keep their
    relative order, no layer is lost or duplicated, and one
    layer-reordered notification fires. *)
Theorem reorder_moves_layer_to_clamped_index layerId newIndex st k l :
  found_at layerId (layers st) k l ->
  let target := clamped_index newIndex (layers st) in
  (target < length (layers st))%nat
  /\ (k = target -> reorder layerId newIndex st = (Returned tt, st))
  /\ (k <> target ->
      exists ls',
        reorder layerId newIndex st
        = (Returned tt,
           mkStack ls' (notified st ++ [layer_reordered]) (random_calls st))
        /\ ls' !! target = Some l
        /\ delete target ls' = delete k (layers st)
        /\ ls' ≡ₚ layers st
        /\ length ls' = length (layers st)).
Proof.
  intros Hf. cbv zeta.
  pose proof (found_at_bound _ _ _ _ Hf) as Hlen.
  pose proof (reorder_found layerId newIndex st k l Hf) as Hre.
  assert (Ht : (clamped_index newIndex (layers st) < length (layers st))%nat)
    by (unfold clamped_index; lia).
  destruct Hf as (Hk & _).
  assert (Hd : (clamped_index newIndex (layers st)
                <= length (delete k (layers st)))%nat)
    by (rewrite length_delete by eauto; lia).
  split; [exact Ht|]. split.
  - intros Heq. rewrite Hre, decide_True by exact Heq. reflexivity.
  - intros Hne. rewrite decide_False in Hre by exact Hne.
    eexists. split; [exact Hre|].
    assert (Hperm : take (clamped_index newIndex (layers st))
                      (delete k (layers st))
                    ++ l :: drop (clamped_index newIndex (layers st))
                              (delete k (layers st))
                    ≡ₚ layers st).
    { rewrite <- Permutation_middle, take_drop.
      apply delete_then_cons_perm, Hk. }
    split; [apply insert_at_lookup, Hd|].
    split; [apply delete_inserted, Hd|].
    split; [exact Hperm|].
    apply Permutation_length, Hperm.
Qed.

Lemma merged_properties_lookup
    (partial : gmap string (option LayerPropertyValue))
    (props : LayerProperties) key :
  (omap (fun v => v) (delete "__proto__" partial) ∪ props) !! key
  = if decide (key = "__proto__") then props !! key
    else match partial !! key with
         | Some (Some v) => Some v
         | _ => props !! key
         end.
Proof.
  rewrite lookup_union, lookup_omap.
  destruct (decide (key = "__proto__")) as [->|Hne].
  - rewrite lookup_delete_eq. cbn. destruct (props !! "__proto__"); reflexivity.
  - rewrite lookup_delete_ne by congruence.
    destruct (partial !! key) as [[v|]|]; cbn;
      destruct (props !! key); reflexivity.
Qed.

Lemma DesignLayer_eta l :
  mkDesignLayer (id l) (type l) (name l) (visible l) (locked l) (opacity l)
    (blendMode l) (transform l) (properties l) (children l) = l.
Proof. destruct l; reflexivity. Qed.

(** X9.  [updateProperties(id, partial)] merges key by key: a key other
    than "__proto__" that the partial gives a value for takes that value;
    a key the partial leaves out or gives as undefined keeps its old value
    (undefined never overwrites or deletes), and so does the key
    "__proto__" whatever the partial says about it.  Every other field of
    the layer is untouched, and [get(id)] afterwards returns the updated
    layer. *)
Theorem updateProperties_merges_defined_entries layerId partial st k l :
  found_at layerId (layers st) k l ->
  exists l',
    let st' := mkStack (<[k := l']> (layers st))
                 (notified st ++ [layer_updated]) (random_calls st) in
    updateProperties layerId partial st = (Returned tt, st')
    /\ get layerId st' = (Returned (Some l'), st')
    /\ (forall key,
          properties l' !! key
          = if decide (key = "__proto__") then properties l !! key
            else match partial !! key with
                 | Some (Some v) => Some v
                 | _ => properties l !! key
                 end)
    /\ l' = mkDesignLayer (id l) (type l) (name l) (visible l) (locked l)
              (opacity l) (blendMode l) (transform l) (properties l')
              (children l).
Proof.
  intros Hf. pose proof Hf as (Hk & Hid & Hfirst).
  eexists. cbv zeta.
  split; [apply (updateProperties_first _ _ _ _ _ Hk Hid Hfirst)|].
  split.
  - apply (found_at_get layerId _ k). cbn [layers].
    apply (found_at_insert _ _ _ l); [exact Hf | exact Hid].
  - split; [|reflexivity].
    intros key. cbn [properties]. apply merged_properties_lookup.
Qed.

Lemma insert_same_id (ls : list DesignLayer) k l l' :
  ls !! k = Some l -> id l' = id l ->
  map id (<[k := l']> ls) = map id ls
  /\ length (<[k := l']> ls) = length ls
  /\ (forall j, j <> k -> <[k := l']> ls !! j = ls !! j)
  /\ <[k := l']> ls !! k = Some l'.
Proof.
  intros Hk Hid. split; [|split; [|split]].
  - change (map id) with (fmap (M := list) id).
    rewrite list_fmap_insert, Hid. apply list_insert_id.
    rewrite list_lookup_fmap, Hk. reflexivity.
  - apply length_insert.
  - intros j Hj. apply list_lookup_insert_ne. congruence.
  - apply list_lookup_insert_eq, (lookup_lt_Some _ _ _ Hk).
Qed.

(** X10.  The three update methods touch one layer only and never its
    identity: after [updateProperties], [updateTransform] or [updateBlend]
    on a present id the stack has the same ids in the same order and the
    same length, every layer at another index is unchanged, the updated
    layer keeps its id, type, name, visibility, lock flag and children,
    and exactly one layer-updated notification is added. *)
Theorem updates_preserve_stack_structure layerId st k l :
  found_at layerId (layers st) k l ->
  forall (result : Outcome unit * StackState),
    (exists partial, result = updateProperties layerId partial st)
    \/ (exists partial, result = updateTransform layerId partial st)
    \/ (exists newBlendMode newOpacity,
          result = updateBlend layerId newBlendMode newOpacity st) ->
    exists l',
      result = (Returned tt,
                mkStack (<[k := l']> (layers st))
                  (notified st ++ [layer_updated]) (random_calls st))
      /\ map id (layers (snd result)) = map id (layers st)
      /\ length (layers (snd result)) = length (layers st)
      /\ (forall j, j <> k -> layers (snd result) !! j = layers st !! j)
      /\ layers (snd result) !! k = Some l'
      /\ id l' = id l /\ type l' = type l /\ name l' = name l
      /\ visible l' = visible l /\ locked l' = locked l
      /\ children l' = children l.
Proof.
  intros (Hk & Hid & Hfirst) result Hres.
  destruct Hres as [[partial ->] | [[partial ->] | (bm & op & ->)]];
    [rewrite (updateProperties_first _ _ _ _ _ Hk Hid Hfirst)
    |rewrite (updateTransform_first _ _ _ _ _ Hk Hid Hfirst)
    |rewrite (updateBlend_first _ _ _ _ _ _ Hk Hid Hfirst)];
    (eexists; split; [reflexivity|]; cbn [snd layers];
     match goal with
     | |- context [<[k := ?l']> (layers st)] =>
         destruct (insert_same_id (layers st) k l l' Hk eq_refl)
           as (H1 & H2 & H3 & H4)
     end;
     repeat split; assumption).
Qed.

(** X11.  An update that changes nothing still notifies: [updateBlend]
    with neither argument, [updateTransform] with an empty partial and
    [updateProperties] with a partial whose entries are all undefined (or
    with no entry) leave every layer as it was and add one layer-updated
    notification. *)
Theorem empty_updates_still_notify layerId st k l :
  found_at layerId (layers st) k l ->
  let st' := mkStack (layers st) (notified st ++ [layer_updated])
               (random_calls st) in
  updateBlend layerId None None st = (Returned tt, st')
  /\ updateTransform layerId empty_partial_transform st = (Returned tt, st')
  /\ (forall partial : gmap string (option LayerPropertyValue),
        (forall key v, partial !! key = Some v -> v = None) ->
        updateProperties layerId partial st = (Returned tt, st')).
Proof.
  intros (Hk & Hid & Hfirst). cbv zeta. split; [|split].
  - rewrite (updateBlend_first _ _ _ _ _ _ Hk Hid Hfirst). cbn [default].
    rewrite DesignLayer_eta, (list_insert_id _ _ _ Hk). reflexivity.
  - rewrite (updateTransform_first _ _ _ _ _ Hk Hid Hfirst).
    assert (Hm : merge_transform (transform l) empty_partial_transform
                 = transform l) by (destruct (transform l); reflexivity).
    rewrite Hm, DesignLayer_eta, (list_insert_id _ _ _ Hk). reflexivity.
  - intros partial Hundef.
    rewrite (updateProperties_first _ _ _ _ _ Hk Hid Hfirst).
    assert (Hp : omap (fun v => v) (delete "__proto__" partial)
                 ∪ properties l = properties l).
    { apply map_eq. intros key. rewrite merged_properties_lookup.
      destruct (decide (key = "__proto__")); [reflexivity|].
      destruct (partial !! key) as [[v|]|] eqn:Hkey; try reflexivity.
      specialize (Hundef key (Some v) Hkey). discriminate Hundef. }
    rewrite Hp, DesignLayer_eta, (list_insert_id _ _ _ Hk). reflexivity.
Qed.

Lemma map_toMutable_same ls : map toMutable ls = ls.
Proof.
  induction ls as [|l rest IH]; [reflexivity|].
  cbn [map]. rewrite toMutable_same, IH. reflexivity.
Qed.

(** X12.  A stack created from a snapshot holds exactly that snapshot:
    [getAll] returns the initial layers unchanged at every depth (ids,
    names, children included), [count] is their number, [get] finds the
    first top-level layer with a given id, and no notification has been
    sent. *)
Theorem createLayerStack_holds_the_snapshot initialLayers :
  let st := createLayerStack initialLayers in
  getAll st = (Returned initialLayers, st)
  /\ count st = (Returned (length initialLayers), st)
  /\ notified st = []
  /\ (forall layerId,
        get layerId st
        = (Returned (Array_find (has_id layerId) initialLayers), st)).
Proof.
  cbv zeta. unfold createLayerStack, getAll, count, get, bind, get_layers, ret.
  cbn [layers notified]. rewrite map_toMutable_same. repeat split.
Qed.

Lemma add_position layer index st :
  exists pos,
    (pos <= length (layers st))%nat
    /\ add layer index st
       = (Returned tt,
          mkStack (take pos (layers st) ++ layer :: drop pos (layers st))
            (notified st ++ [layer_added]) (random_calls st)).
Proof.
  rewrite add_spec, toMutable_same.
  assert (Hend : exists pos,
             (pos <= length (layers st))%nat
             /\ layers st ++ [layer]
                = take pos (layers st) ++ layer :: drop pos (layers st)).
  { exists (length (layers st)). split; [lia|].
    apply append_is_insert_at_end. }
  destruct index as [i|]; [|destruct Hend as (pos & Hpos & ->); eauto].
  destruct ((0 <=? i)%Z && (i <=? Z.of_nat (length (layers st)))%Z) eqn:Hrange;
    [|destruct Hend as (pos & Hpos & ->); eauto].
  apply andb_true_iff in Hrange as [Hlo Hhi].
  apply Z.leb_le in Hlo. apply Z.leb_le in Hhi.
  exists (Z.to_nat i). split; [lia | reflexivity].
Qed.

Lemma found_at_inserted (ls : list DesignLayer) pos layer :
  (pos <= length ls)%nat -> id layer ∉ map id ls ->
  found_at (id layer) (take pos ls ++ layer :: drop pos ls) pos layer.
Proof.
  intros Hpos Hfresh.
  destruct (insert_at_lookup pos layer ls Hpos) as (Hat & Hbefore & _).
  split; [exact Hat|]. split; [reflexivity|].
  intros j l' Hj Hl' Heq. rewrite Hbefore in Hl' by exact Hj.
  apply Hfresh. rewrite <- Heq. apply list_elem_of_fmap. exists l'.
  split; [reflexivity|]. apply (list_elem_of_lookup_2 _ _ _ Hl').
Qed.

(** X13.  Adding a layer whose id no top-level layer carries, at any
    index or none, grows the stack by one and makes the layer retrievable:
    [get(id)] returns it as passed.  Removing it again by its id restores
    the layer sequence exactly; the two calls leave a layer-added and a
    layer-removed notification behind. *)
Theorem add_then_get_and_remove layer index st :
  id layer ∉ map id (layers st) ->
  exists st1,
    add layer index st = (Returned tt, st1)
    /\ length (layers st1) = S (length (layers st))
    /\ get (id layer) st1 = (Returned (Some layer), st1)
    /\ remove (id layer) st1
       = (Returned true,
          mkStack (layers st) (notified st ++ [layer_added; layer_removed])
            (random_calls st)).
Proof.
  intros Hfresh. destruct (add_position layer index st) as (pos & Hpos & Hadd).
  pose proof (found_at_inserted (layers st) pos layer Hpos Hfresh) as Hf.
  eexists. split; [exact Hadd|]. cbn [layers].
  split.
  { rewrite length_app, length_take. cbn [length]. rewrite length_drop. lia. }
  split; [exact (found_at_get _ (mkStack _ _ _) pos layer Hf)|].
  rewrite (remove_found (id layer) (mkStack _ _ _) pos layer Hf).
  cbn [layers notified random_calls].
  rewrite (delete_inserted pos layer (layers st) Hpos), <- app_assoc.
  reflexivity.
Qed.

Lemma deepCloneLayer_id rnd layer n :
  id (fst (deepCloneLayer rnd layer n)) = fst (uuid rnd n).
Proof.
  rewrite deepCloneLayer_unfold. destruct (uuid rnd n) as [u n1].
  destruct (children layer) as [cs|]; [|reflexivity].
  destruct (map_threaded (deepCloneLayer rnd) cs n1). reflexivity.
Qed.

Lemma cloned_children_composite rnd reg ig cs :
  Forall (fun c => forall n ctx,
            compositeLayer reg ig (fst (deepCloneLayer rnd c n)) ctx
            = compositeLayer reg ig c ctx) cs ->
  forall n ctx,
    compositeLayers reg ig (fst (map_threaded (deepCloneLayer rnd) cs n)) ctx
    = compositeLayers reg ig cs ctx.
Proof.
  induction 1 as [|c rest Hc _ IH]; intros n ctx; [reflexivity|].
  cbn [map_threaded]. specialize (Hc n ctx).
  destruct (deepCloneLayer rnd c n) as [c' n1]. cbn [fst] in Hc.
  specialize (IH n1).
  destruct (map_threaded (deepCloneLayer rnd) rest n1) as [rest' n2].
  cbn [fst] in *. rewrite !compositeLayers_cons, Hc. apply IH.
Qed.

Lemma clone_composites_like_source rnd reg ig layer :
  forall n ctx,
    compositeLayer reg ig (fst (deepCloneLayer rnd layer n)) ctx
    = compositeLayer reg ig layer ctx.
Proof.
  induction layer as [i ty nm vis lk op bm tr props kids IH]
    using DesignLayer_tree_ind.
  intros n ctx. rewrite deepCloneLayer_unfold. cbn [children name type
    visible locked opacity blendMode transform properties].
  destruct (uuid rnd n) as [u n1].
  destruct kids as [cs|]; [|reflexivity].
  cbn [Forall_children] in IH.
  pose proof (cloned_children_composite rnd reg ig cs IH n1) as Hkids.
  destruct cs as [|c rest]; [reflexivity|].
  cbn [map_threaded] in *.
  destruct (deepCloneLayer rnd c n1) as [c' n2].
  destruct (map_threaded (deepCloneLayer rnd) rest n2) as [rest' n3].
  cbn [fst] in *. rewrite !compositeLayer_unfold.
  cbn [visible type children]. unfold enterGroup. cbn [opacity blendMode].
  rewrite Hkids. reflexivity.
Qed.

Lemma compositeLayers_app reg ig ls1 ls2 ctx :
  compositeLayers reg ig (ls1 ++ ls2) ctx
  = compositeLayers reg ig ls2 (compositeLayers reg ig ls1 ctx).
Proof. unfold compositeLayers. apply fold_left_app. Qed.

Lemma cloned_children_anonymous rnd cs :
  Forall (fun c => forall n,
            without_id_and_name (fst (deepCloneLayer rnd c n))
            = without_id_and_name c) cs ->
  forall n,
    map without_id_and_name (fst (map_threaded (deepCloneLayer rnd) cs n))
    = map without_id_and_name cs.
Proof.
  induction 1 as [|c rest Hc _ IH]; intros n; [reflexivity|].
  cbn [map_threaded]. specialize (Hc n).
  destruct (deepCloneLayer rnd c n) as [c' n1]. cbn [fst] in Hc.
  specialize (IH n1).
  destruct (map_threaded (deepCloneLayer rnd) rest n1) as [rest' n2].
  cbn [fst map] in *. rewrite Hc, IH. reflexivity.
Qed.

Lemma clone_is_anonymous_copy rnd layer :
  forall n,
    without_id_and_name (fst (deepCloneLayer rnd layer n))
    = without_id_and_name layer.
Proof.
  induction layer as [i ty nm vis lk op bm tr props kids IH]
    using DesignLayer_tree_ind.
  intros n. rewrite deepCloneLayer_unfold. cbn [children name type
    visible locked opacity blendMode transform properties].
  destruct (uuid rnd n) as [u n1].
  destruct kids as [cs|]; [|reflexivity].
  cbn [Forall_children] in IH.
  pose proof (cloned_children_anonymous rnd cs IH n1) as Hkids.
  destruct (map_threaded (deepCloneLayer rnd) cs n1) as [cs' n2].
  cbn [fst without_id_and_name] in *. rewrite Hkids. reflexivity.
Qed.

(** X14.  A duplicated layer looks like its original.  The clone that
    [duplicate(id)] inserts after the original differs from its source in
    ids and names only: with the id and the name of every node blanked,
    clone and original are the same tree, so type, visibility, lock flag,
    opacity, blend mode, transform, properties and the shape of the tree
    are copied at every depth.  The compositor reads neither ids nor
    names, so compositing the stack after [duplicate(id)] draws exactly
    what the stack with the original layer repeated at the next index
    would draw. *)
Theorem duplicate_composites_like_original
    rnd reg ig layerId st k original ctx :
  found_at layerId (layers st) k original ->
  exists clone st',
    duplicate rnd layerId st = (Returned (id clone), st')
    /\ layers st'
       = take (S k) (layers st) ++ clone :: drop (S k) (layers st)
    /\ without_id_and_name clone = without_id_and_name original
    /\ compositeLayers reg ig (layers st') ctx
       = compositeLayers reg ig
           (take (S k) (layers st) ++ original :: drop (S k) (layers st)) ctx.
Proof.
  intros (Hk & Hid & Hfirst).
  exists (fst (deepCloneLayer rnd original (random_calls st))). eexists.
  split; [apply (duplicate_first _ _ _ _ _ Hk Hid Hfirst)|].
  cbn [layers]. split; [reflexivity|].
  split; [apply clone_is_anonymous_copy|].
  rewrite !compositeLayers_app, !compositeLayers_cons.
  rewrite clone_composites_like_source. reflexivity.
Qed.

(** X15.  When the UUID drawn for the clone is not the id of a top-level
    layer, the id [duplicate] returns addresses the clone: [get] with it
    returns the clone, which sits right after the original, and [count]
    has grown by one. *)
Theorem duplicate_returns_id_of_clone rnd layerId st k original :
  found_at layerId (layers st) k original ->
  fst (uuid rnd (random_calls st)) ∉ map id (layers st) ->
  exists clone st',
    duplicate rnd layerId st = (Returned (id clone), st')
    /\ id clone = fst (uuid rnd (random_calls st))
    /\ layers st' !! S k = Some clone
    /\ get (id clone) st' = (Returned (Some clone), st')
    /\ fst (count st') = Returned (S (length (layers st))).
Proof.
  intros Hf Hfresh. pose proof (found_at_bound _ _ _ _ Hf) as Hlen.
  destruct Hf as (Hk & Hid & Hfirst).
  set (clone := fst (deepCloneLayer rnd original (random_calls st))).
  assert (Hcid : id clone = fst (uuid rnd (random_calls st)))
    by apply deepCloneLayer_id.
  assert (Hpos : (S k <= length (layers st))%nat) by lia.
  rewrite <- Hcid in Hfresh.
  pose proof (found_at_inserted (layers st) (S k) clone Hpos Hfresh) as Hfc.
  exists clone. eexists.
  split; [apply (duplicate_first _ _ _ _ _ Hk Hid Hfirst)|].
  split; [exact Hcid|]. cbn [layers].
  split; [apply Hfc|].
  split; [exact (found_at_get _ (mkStack _ _ _) (S k) clone Hfc)|].
  unfold count, bind, get_layers, ret. cbn [fst layers]. f_equal.
  rewrite length_app, length_take. cbn [length]. rewrite length_drop. lia.
Qed.

(** ** Generated ids *)

Lemma to_int32_of_unit_interval (q : Q) :
  0 <= q -> q < 1 -> (0 <= to_int32 (q * 16) <= 15)%Z.
Proof.
  destruct q as [a b]. unfold Qle, Qlt, to_int32. cbn [Qnum Qden Qmult].
  intros Hlo Hhi.
  assert (Ha : (0 <= a)%Z) by lia.
  assert (Hb : (a < Z.pos b)%Z) by lia.
  replace (Z.pos (b * 1)) with (Z.pos b) by (rewrite Pos.mul_1_r; reflexivity).
  rewrite Z.quot_div_nonneg by lia.
  assert (Hq : (0 <= a * 16 / Z.pos b < 16)%Z).
  { split; [apply Z.div_pos; lia|].
    apply Z.div_lt_upper_bound; lia. }
  rewrite Z.mod_small by lia.
  destruct (Z.leb_spec (2 ^ 31) (a * 16 / Z.pos b)); lia.
Qed.

Ltac find_in_list :=
  repeat first [apply list_elem_of_here | apply list_elem_of_further].

Lemma uuid_char_is_one_digit rnd c k :
  0 <= rnd k -> rnd k < 1 ->
  exists h,
    uuid_char rnd c k = String h EmptyString
    /\ h ∈ hex_digits
    /\ (Ascii.eqb c "x" = false -> h ∈ variant_digits).
Proof.
  intros Hlo Hhi. unfold uuid_char.
  pose proof (to_int32_of_unit_interval (rnd k) Hlo Hhi) as Hr.
  set (r := to_int32 (rnd k * 16)) in *. clearbody r.
  assert (Hcases : (r = 0 \/ r = 1 \/ r = 2 \/ r = 3 \/ r = 4 \/ r = 5
                   \/ r = 6 \/ r = 7 \/ r = 8 \/ r = 9 \/ r = 10 \/ r = 11
                   \/ r = 12 \/ r = 13 \/ r = 14 \/ r = 15)%Z) by lia.
  clear Hr.
  destruct (Ascii.eqb c "x");
    repeat (destruct Hcases as [-> | Hcases];
            [eexists; split; [vm_compute; reflexivity|];
             split; [unfold hex_digits; find_in_list|];
             first [discriminate 1
                   | intros _; unfold variant_digits; find_in_list]|]);
    subst r;
    (eexists; split; [vm_compute; reflexivity|];
     split; [unfold hex_digits; find_in_list|];
     first [discriminate 1
           | intros _; unfold variant_digits; find_in_list]).
Qed.

Lemma uuid_char_digit rnd :
  (forall k, 0 <= rnd k /\ rnd k < 1) ->
  forall c k,
    uuid_char rnd c k = String (uuid_digit rnd c k) EmptyString
    /\ uuid_digit rnd c k ∈ hex_digits
    /\ (Ascii.eqb c "x" = false -> uuid_digit rnd c k ∈ variant_digits).
Proof.
  intros Hrange c k. destruct (Hrange k) as [Hlo Hhi].
  destruct (uuid_char_is_one_digit rnd c k Hlo Hhi) as (h & Heq & Hhex & Hvar).
  unfold uuid_digit. rewrite Heq. repeat split; assumption.
Qed.

Lemma uuid_explicit rnd n :
  (forall k, 0 <= rnd k /\ rnd k < 1) ->
  exists d : nat -> ascii,
    (forall j, d j ∈ hex_digits) /\ d 15%nat ∈ variant_digits
    /\ uuid rnd n
       = (String (d 0%nat) (String (d 1%nat) (String (d 2%nat) (String (d 3%nat)
         (String (d 4%nat) (String (d 5%nat) (String (d 6%nat) (String (d 7%nat)
         (String "-"
         (String (d 8%nat) (String (d 9%nat) (String (d 10%nat) (String (d 11%nat)
         (String "-"
         (String "4" (String (d 12%nat) (String (d 13%nat) (String (d 14%nat)
         (String "-"
         (String (d 15%nat) (String (d 16%nat) (String (d 17%nat) (String (d 18%nat)
         (String "-"
         (String (d 19%nat) (String (d 20%nat) (String (d 21%nat) (String (d 22%nat)
         (String (d 23%nat) (String (d 24%nat) (String (d 25%nat) (String (d 26%nat)
         (String (d 27%nat) (String (d 28%nat) (String (d 29%nat) (String (d 30%nat)
         EmptyString))))))))))))))))))))))))))))))))))),
          (n + 31)%nat).
Proof.
  intros Hrange.
  exists (fun j => uuid_digit rnd (if Nat.eqb j 15 then "y" else "x")%char
                     (n + j)).
  split; [intros j; apply (uuid_char_digit rnd Hrange)|].
  split; [apply (uuid_char_digit rnd Hrange); reflexivity|].
  unfold uuid. cbn [replace_xy Ascii.eqb Bool.eqb orb].
  rewrite !(fun c k => proj1 (uuid_char_digit rnd Hrange c k)).
  cbv beta iota delta [String.append]. cbn [Nat.eqb]. rewrite !Nat.add_succ_r, Nat.add_0_r.
  reflexivity.
Qed.

(** X16.  When the random source stays in [0, 1), [uuid()] has the shape
    of a version-4 UUID: 36 characters, hyphens at positions 8, 13, 18 and
    23, the digit 4 at position 14, one of 8, 9, a, b at position 19, and
    lowercase hexadecimal digits everywhere else; it consumes exactly 31
    random numbers. *)
Theorem uuid_has_version4_shape rnd n :
  (forall k, 0 <= rnd k /\ rnd k < 1) ->
  let u := fst (uuid rnd n) in
  String.length u = 36%nat
  /\ snd (uuid rnd n) = (n + 31)%nat
  /\ String.get 8 u = Some "-"%char /\ String.get 13 u = Some "-"%char
  /\ String.get 18 u = Some "-"%char /\ String.get 23 u = Some "-"%char
  /\ String.get 14 u = Some "4"%char
  /\ (exists v, String.get 19 u = Some v /\ v ∈ variant_digits)
  /\ (forall i c,
        String.get i u = Some c ->
        i <> 8%nat -> i <> 13%nat -> i <> 18%nat -> i <> 23%nat ->
        c ∈ hex_digits).
Proof.
  intros Hrange. cbv zeta.
  destruct (uuid_explicit rnd n Hrange) as (d & Hhex & Hvar & ->).
  cbn [fst snd].
  split; [reflexivity|]. split; [reflexivity|].
  do 5 (split; [reflexivity|]).
  split; [exists (d 15%nat); split; [reflexivity | exact Hvar]|].
  intros i c Hget H8 H13 H18 H23.
  do 36 (destruct i as [|i];
         [cbn in Hget; injection Hget as <-;
          first [apply Hhex
                | solve [unfold hex_digits; find_in_list]
                | congruence]|]).
  cbn in Hget. discriminate Hget.
Qed.

(** * Properties of the plugin registry *)

Section JsMapFacts.
Context {V : Type}.
Implicit Types (m : list (string * V)) (k : string).

Lemma key_is_true k (entry : string * V) :
  key_is k entry = true <-> fst entry = k.
Proof. unfold key_is. apply String.eqb_eq. Qed.

Lemma Map_has_true k m : Map_has k m = true <-> k ∈ map fst m.
Proof.
  unfold Map_has. rewrite existsb_exists. split.
  - intros (entry & Hin & Hkey). apply key_is_true in Hkey. subst k.
    apply list_elem_of_fmap. exists entry. split; [reflexivity|].
    apply list_elem_of_In, Hin.
  - intros Hin. apply list_elem_of_fmap in Hin as (entry & -> & Hin).
    exists entry. split; [apply list_elem_of_In, Hin|].
    apply key_is_true. reflexivity.
Qed.

Lemma Map_has_false k m : Map_has k m = false <-> k ∉ map fst m.
Proof.
  rewrite <- Map_has_true. destruct (Map_has k m); split; congruence.
Qed.

Lemma Map_get_has k m : Map_has k m = true <-> is_Some (Map_get k m).
Proof.
  unfold Map_has, Map_get. induction m as [|entry rest IH]; cbn.
  - split; [discriminate | intros [v Hv]; discriminate Hv].
  - destruct (key_is k entry); cbn; [|exact IH].
    split; [eauto | reflexivity].
Qed.

Lemma Map_get_None k m : Map_get k m = None <-> Map_has k m = false.
Proof.
  pose proof (Map_get_has k m) as H.
  destruct (Map_has k m), (Map_get k m) as [v|]; split; try congruence.
  - intros _. destruct (proj1 H eq_refl) as [v Hv]. discriminate Hv.
  - intros _. assert (Hs : is_Some (Some v)) by eauto.
    apply H in Hs. discriminate Hs.
Qed.

Lemma Map_get_lookup k m v :
  Map_get k m = Some v -> exists j, m !! j = Some (k, v).
Proof.
  unfold Map_get. induction m as [|entry rest IH]; cbn; [discriminate|].
  destruct (key_is k entry) eqn:Hkey; cbn.
  - intros [= <-]. exists 0%nat. apply key_is_true in Hkey.
    destruct entry; cbn in *. subst. reflexivity.
  - intros Hrest. destruct (IH Hrest) as [j Hj]. exists (S j). exact Hj.
Qed.

Lemma Map_get_append k m k' v :
  Map_get k (m ++ [(k', v)])
  = match Map_get k m with
    | Some found => Some found
    | None => if String.eqb k' k then Some v else None
    end.
Proof.
  unfold Map_get. induction m as [|entry rest IH]; cbn.
  - unfold key_is. cbn. destruct (String.eqb k' k); reflexivity.
  - destruct (key_is k entry); cbn; [reflexivity | exact IH].
Qed.

Lemma Map_set_fresh k v m : Map_has k m = false -> Map_set k v m = m ++ [(k, v)].
Proof. intros H. unfold Map_set. rewrite H. reflexivity. Qed.

Lemma Map_get_delete k m k' :
  Map_get k (Map_delete k' m)
  = if String.eqb k' k then None else Map_get k m.
Proof.
  unfold Map_get, Map_delete. induction m as [|entry rest IH]; cbn.
  - destruct (String.eqb k' k); reflexivity.
  - unfold key_is in *. destruct (String.eqb_spec (fst entry) k') as [He|He];
      cbn.
    + rewrite IH. destruct (String.eqb_spec k' k) as [Hk|Hk]; [reflexivity|].
      destruct (String.eqb_spec (fst entry) k); [congruence | reflexivity].
    + destruct (String.eqb_spec (fst entry) k) as [Hk|Hk]; cbn.
      * destruct (String.eqb_spec k' k); [congruence | reflexivity].
      * exact IH.
Qed.
End JsMapFacts.

Lemma no_missing_dependency plugin st :
  (forall deps dep,
     DesignPlugin.dependencies plugin = Some deps -> dep ∈ deps ->
     is_Some (Registry.get dep st)) ->
  Registry.first_missing_dependency plugin st = None.
Proof.
  intros Hdeps. unfold Registry.first_missing_dependency.
  destruct (DesignPlugin.dependencies plugin) as [deps|]; [|reflexivity].
  specialize (Hdeps deps).
  destruct (find_first (fun dep => negb (Map_has dep (Registry.plugins st)))
              deps 0) as [(_ & _ & Hnone) | (j & dep & Hj & Hmiss & _)];
    [exact Hnone|].
  exfalso. apply list_elem_of_lookup_2 in Hj.
  specialize (Hdeps dep eq_refl Hj). apply Map_get_has in Hdeps.
  rewrite Hdeps in Hmiss. discriminate Hmiss.
Qed.

(** X17.  Registering a plugin whose id is free, whose dependencies are
    all registered and whose [initialize] resolves stores it last in
    registration order: [get] with its id returns it, [getAll] is the
    previous list followed by it, every other id resolves as before, and
    [initialize] has been called once for it. *)
Theorem register_stores_plugin plugin st :
  Registry.get (DesignPlugin.id plugin) st = None ->
  (forall deps dep,
     DesignPlugin.dependencies plugin = Some deps -> dep ∈ deps ->
     is_Some (Registry.get dep st)) ->
  DesignPlugin.initialize plugin = Returned tt ->
  exists st',
    Registry.register plugin st = (Returned tt, st')
    /\ Registry.get (DesignPlugin.id plugin) st' = Some plugin
    /\ Registry.getAll st' = Registry.getAll st ++ [plugin]
    /\ (forall other, other <> DesignPlugin.id plugin ->
                      Registry.get other st' = Registry.get other st)
    /\ Registry.lifecycle st'
       = Registry.lifecycle st ++ [Initialize (DesignPlugin.id plugin)].
Proof.
  intros Hfree Hdeps Hinit. unfold Registry.get in Hfree.
  apply Map_get_None in Hfree.
  eexists. split.
  { unfold Registry.register.
    rewrite Hfree, (no_missing_dependency plugin st Hdeps), Hinit,
      (Map_set_fresh _ _ _ Hfree). reflexivity. }
  unfold Registry.get, Registry.getAll, Map_values. cbn [Registry.plugins
    Registry.lifecycle].
  split; [|split; [|split]].
  - rewrite Map_get_append, String.eqb_refl.
    apply Map_get_None in Hfree. rewrite Hfree. reflexivity.
  - rewrite map_app. reflexivity.
  - intros other Hother. rewrite Map_get_append.
    destruct (Map_get other (Registry.plugins st)); [reflexivity|].
    destruct (String.eqb_spec (DesignPlugin.id plugin) other);
      [congruence | reflexivity].
  - reflexivity.
Qed.

(** X18.  A registration that is refused changes nothing.  If the id is
    already registered, [register] fails with the already-registered
    error; otherwise, if some dependency is not registered, it fails with
    the error naming the first missing dependency.  In both cases the
    registry is exactly as before and the plugin's [initialize] has not
    been called. *)
Theorem refused_registration_changes_nothing plugin st :
  (is_Some (Registry.get (DesignPlugin.id plugin) st) ->
   Registry.register plugin st
   = (Thrown (Registry.already_registered_message (DesignPlugin.id plugin)),
      st))
  /\ (forall before dep after,
        Registry.get (DesignPlugin.id plugin) st = None ->
        DesignPlugin.dependencies plugin = Some (before ++ dep :: after) ->
        (forall d, d ∈ before -> is_Some (Registry.get d st)) ->
        Registry.get dep st = None ->
        Registry.register plugin st
        = (Thrown (Registry.missing_dependency_message
                     (DesignPlugin.id plugin) dep),
           st)).
Proof.
  split.
  - intros Hhas. apply Map_get_has in Hhas. unfold Registry.register.
    rewrite Hhas. reflexivity.
  - intros before dep after Hfree Hdeps Hbefore Hdep.
    unfold Registry.get in *. apply Map_get_None in Hfree.
    apply Map_get_None in Hdep.
    unfold Registry.register, Registry.first_missing_dependency.
    rewrite Hfree, Hdeps.
    assert (Hfind : Array_find
                      (fun dep0 => negb (Map_has dep0 (Registry.plugins st)))
                      (before ++ dep :: after) = Some dep).
    { clear Hdeps. induction before as [|d rest IH]; cbn.
      - rewrite Hdep. reflexivity.
      - assert (Hd : Map_has d (Registry.plugins st) = true).
        { apply Map_get_has, Hbefore. left. }
        rewrite Hd. cbn. apply IH. intros d' Hd'. apply Hbefore. right.
        exact Hd'. }
    rewrite Hfind. reflexivity.
Qed.

Lemma register_plugins plugin st :
  Registry.plugins (snd (Registry.register plugin st)) = Registry.plugins st
  \/ (Map_has (DesignPlugin.id plugin) (Registry.plugins st) = false
      /\ Registry.first_missing_dependency plugin st = None
      /\ Registry.plugins (snd (Registry.register plugin st))
         = Registry.plugins st ++ [(DesignPlugin.id plugin, plugin)]).
Proof.
  unfold Registry.register.
  destruct (Map_has (DesignPlugin.id plugin) (Registry.plugins st)) eqn:Hhas;
    [left; reflexivity|].
  destruct (Registry.first_missing_dependency plugin st) eqn:Hmiss;
    [left; reflexivity|].
  destruct (DesignPlugin.initialize plugin); [|left; reflexivity].
  right. rewrite (Map_set_fresh _ _ _ Hhas). repeat split.
Qed.

Lemma unregister_plugins pluginId st :
  Registry.plugins (snd (Registry.unregister pluginId st)) = Registry.plugins st
  \/ Registry.plugins (snd (Registry.unregister pluginId st))
     = Map_delete pluginId (Registry.plugins st).
Proof.
  unfold Registry.unregister.
  destruct (Map_get pluginId (Registry.plugins st)) as [plugin|];
    [|left; reflexivity].
  destruct (DesignPlugin.dispose plugin); [right | left]; reflexivity.
Qed.

(** X19.  The registry never holds two plugins under one id, and every
    plugin it holds is stored under its own id: this is true of a new
    registry and stays true after any [register] or [unregister] call,
    whether the call succeeds or fails.  Hence [get(id)] only ever returns
    a plugin whose id is [id]. *)
Theorem registry_ids_stay_unique :
  registry_consistent Registry.createPluginRegistry
  /\ (forall st,
        registry_consistent st ->
        (forall plugin,
           registry_consistent (snd (Registry.register plugin st)))
        /\ (forall pluginId,
              registry_consistent (snd (Registry.unregister pluginId st)))
        /\ (forall pluginId plugin,
              Registry.get pluginId st = Some plugin ->
              DesignPlugin.id plugin = pluginId)).
Proof.
  split; [split; constructor|].
  intros st [Hnodup Hkeys]. split; [|split].
  - intros plugin. unfold registry_consistent.
    destruct (register_plugins plugin st) as [-> | (Hfree & _ & ->)];
      [split; assumption|].
    split.
    + rewrite map_app. apply NoDup_app. split; [exact Hnodup|].
      split; [|apply NoDup_singleton].
      intros k Hk Hk'. cbn in Hk'. apply list_elem_of_singleton in Hk'.
      subst k. apply Map_has_false in Hfree. contradiction.
    + apply Forall_app. split; [exact Hkeys|].
      constructor; [reflexivity | constructor].
  - intros pluginId. unfold registry_consistent.
    destruct (unregister_plugins pluginId st) as [-> | ->];
      [split; assumption|].
    unfold Map_delete. clear -Hnodup Hkeys.
    induction (Registry.plugins st) as [|entry rest IH]; [split; constructor|].
    apply NoDup_cons in Hnodup as [Hnotin Hnodup].
    apply Forall_cons in Hkeys as [Hkey Hkeys].
    destruct (IH Hnodup Hkeys) as [IHn IHk]. cbn.
    destruct (negb (key_is pluginId entry)); [|split; assumption].
    split.
    + cbn. apply NoDup_cons. split; [|exact IHn].
      intros Hin. apply Hnotin.
      apply list_elem_of_fmap in Hin as (e & He & Hin).
      apply list_elem_of_fmap. exists e. split; [exact He|].
      apply list_elem_of_In, filter_In in Hin as [Hin _].
      apply list_elem_of_In, Hin.
    + constructor; assumption.
  - intros pluginId plugin Hget. unfold Registry.get in Hget.
    destruct (Map_get_lookup _ _ _ Hget) as [j Hj].
    rewrite Forall_forall in Hkeys.
    specialize (Hkeys (pluginId, plugin) (list_elem_of_lookup_2 _ _ _ Hj)).
    cbn in Hkeys. congruence.
Qed.

Lemma register_keeps_dependencies_first plugin st :
  dependencies_first st ->
  dependencies_first (snd (Registry.register plugin st)).
Proof.
  intros Hst. unfold dependencies_first.
  destruct (register_plugins plugin st) as [-> | (Hfree & Hmiss & ->)];
    [exact Hst|].
  intros i k p deps dep Hi Hdeps Hdep.
  destruct (Nat.lt_ge_cases i (length (Registry.plugins st))) as [Hlt|Hge].
  - rewrite lookup_app_l in Hi by exact Hlt.
    destruct (Hst i k p deps dep Hi Hdeps Hdep) as (j & other & Hj & Hother).
    exists j, other. split; [exact Hj|].
    rewrite lookup_app_l by lia. exact Hother.
  - rewrite lookup_app_r in Hi by exact Hge.
    destruct (i - length (Registry.plugins st))%nat as [|n] eqn:Hn;
      [|destruct n; discriminate Hi].
    cbn in Hi. injection Hi as <- <-.
    unfold Registry.first_missing_dependency in Hmiss. rewrite Hdeps in Hmiss.
    destruct (find_first
                (fun d => negb (Map_has d (Registry.plugins st))) deps 0)
      as [(Hall & _) | (j & d & _ & _ & _ & _ & Hfound)];
      [|rewrite Hfound in Hmiss; discriminate Hmiss].
    rewrite Forall_forall in Hall. specialize (Hall dep Hdep).
    apply negb_false_iff, Map_get_has in Hall as [other Hother].
    destruct (Map_get_lookup _ _ _ Hother) as [j Hj].
    exists j, other. pose proof (lookup_lt_Some _ _ _ Hj) as Hjlt.
    split; [lia|]. rewrite lookup_app_l by exact Hjlt. exact Hj.
Qed.

(** X20.  A registry that has only seen registrations lists its plugins
    in dependency order: whatever plugins are offered to [register], in
    whatever order and with whatever outcome each, every plugin the
    registry ends up holding has each of its dependencies registered at
    an earlier position. *)
Theorem registrations_keep_dependencies_first ps :
  dependencies_first (register_all ps Registry.createPluginRegistry).
Proof.
  assert (Hgen : forall st,
             dependencies_first st -> dependencies_first (register_all ps st)).
  { induction ps as [|p rest IH]; intros st Hst; [exact Hst|].
    cbn. apply IH, register_keeps_dependencies_first, Hst. }
  apply Hgen. intros i k p deps dep Hi. cbn in Hi. discriminate Hi.
Qed.

(** X21.  [unregister(id)] of a registered plugin whose [dispose]
    returns removes exactly that plugin: [dispose] is called once,
    [get(id)] is null afterwards and every other id resolves as before.
    For an id that is not registered it fails with the not-registered
    error and changes nothing. *)
Theorem unregister_removes_only_that_plugin pluginId st :
  (forall plugin,
     Registry.get pluginId st = Some plugin ->
     DesignPlugin.dispose plugin = Returned tt ->
     exists st',
       Registry.unregister pluginId st = (Returned tt, st')
       /\ Registry.get pluginId st' = None
       /\ (forall other, other <> pluginId ->
                         Registry.get other st' = Registry.get other st)
       /\ Registry.lifecycle st' = Registry.lifecycle st ++ [Dispose pluginId])
  /\ (Registry.get pluginId st = None ->
      Registry.unregister pluginId st
      = (Thrown (Registry.not_registered_message pluginId), st)).
Proof.
  unfold Registry.get, Registry.unregister. split.
  - intros plugin Hget Hdispose. rewrite Hget, Hdispose.
    eexists. split; [reflexivity|]. cbn [Registry.plugins Registry.lifecycle].
    split; [|split; [|reflexivity]].
    + rewrite Map_get_delete, String.eqb_refl. reflexivity.
    + intros other Hother. rewrite Map_get_delete.
      destruct (String.eqb_spec pluginId other); [congruence | reflexivity].
  - intros Hnone. rewrite Hnone. reflexivity.
Qed.

Lemma resolve_in_is_find requested ps :
  Registry.resolve_in requested ps
  = Array_find (Registry.has_typeId requested)
      (concat (map DesignPlugin.layerTypes ps)).
Proof.
  induction ps as [|p rest IH]; [reflexivity|].
  cbn [Registry.resolve_in map concat]. rewrite IH.
  induction (DesignPlugin.layerTypes p) as [|lt lts IHl]; [reflexivity|].
  cbn. destruct (Registry.has_typeId requested lt); [reflexivity | exact IHl].
Qed.

(** X22.  [resolveLayerType(typeId)] returns the first layer type with
    that id in [getLayerTypes()] order (plugins in registration order,
    each plugin's types in its own order).  What it returns carries the
    requested type id, and it returns null exactly when no registered
    plugin offers a layer type with that id. *)
Theorem resolveLayerType_finds_first_offered st requested :
  Registry.resolveLayerType st requested
  = Array_find (Registry.has_typeId requested) (Registry.getLayerTypes st)
  /\ (forall lt,
        Registry.resolveLayerType st requested = Some lt ->
        typeId lt = requested /\ lt ∈ Registry.getLayerTypes st)
  /\ (Registry.resolveLayerType st requested = None
      <-> requested ∉ map typeId (Registry.getLayerTypes st)).
Proof.
  unfold Registry.resolveLayerType, Registry.getLayerTypes.
  rewrite resolve_in_is_find.
  set (offered := concat (map DesignPlugin.layerTypes
                            (Map_values (Registry.plugins st)))).
  destruct (find_first (Registry.has_typeId requested) offered 0)
    as [(Hall & _ & Hnone) | (j & lt & Hj & Hlt & _ & _ & Hsome)].
  - rewrite Hnone. split; [reflexivity|]. split; [discriminate 1|].
    split; [|reflexivity]. intros _ Hin.
    apply list_elem_of_fmap in Hin as (lt & Heq & Hin).
    rewrite Forall_forall in Hall. specialize (Hall lt Hin).
    unfold Registry.has_typeId in Hall. apply String.eqb_neq in Hall.
    congruence.
  - rewrite Hsome. split; [reflexivity|].
    unfold Registry.has_typeId in Hlt. apply String.eqb_eq in Hlt.
    split.
    + intros lt' [= <-]. split; [exact Hlt|].
      apply (list_elem_of_lookup_2 _ _ _ Hj).
    + split; [discriminate 1|]. intros Hnot. exfalso. apply Hnot.
      apply list_elem_of_fmap. exists lt. split; [symmetry; exact Hlt|].
      apply (list_elem_of_lookup_2 _ _ _ Hj).
Qed.

(** X23.  Registration never changes what already resolves: after a
    successful [register], a type id that resolved before resolves to the
    same layer type (earlier plugins take precedence), and a type id that
    did not resolve now resolves to the new plugin's first layer type
    with that id, if it has one. *)
Theorem registration_keeps_resolved_types plugin st st' requested :
  Registry.register plugin st = (Returned tt, st') ->
  Registry.resolveLayerType st' requested
  = match Registry.resolveLayerType st requested with
    | Some lt => Some lt
    | None => Array_find (Registry.has_typeId requested)
                (DesignPlugin.layerTypes plugin)
    end.
Proof.
  intros Hreg.
  assert (Hplugins : Registry.plugins st'
                     = Registry.plugins st ++ [(DesignPlugin.id plugin, plugin)]).
  { revert Hreg. unfold Registry.register.
    destruct (Map_has (DesignPlugin.id plugin) (Registry.plugins st)) eqn:Hhas;
      [discriminate 1|].
    destruct (Registry.first_missing_dependency plugin st); [discriminate 1|].
    destruct (DesignPlugin.initialize plugin); [|discriminate 1].
    intros [= <-]. cbn. apply Map_set_fresh, Hhas. }
  unfold Registry.resolveLayerType, Map_values. rewrite Hplugins, map_app.
  cbn [map snd].
  induction (map snd (Registry.plugins st)) as [|p rest IH]; cbn.
  - destruct (Array_find _ _); reflexivity.
  - destruct (Array_find (Registry.has_typeId requested)
                (DesignPlugin.layerTypes p)); [reflexivity | exact IH].
Qed.

(** * Instances *)

Ltac solve_found_at :=
  split; [reflexivity|]; split; [reflexivity|];
  intros j l' Hj Hl';
  repeat (destruct j as [|j];
          [cbn in Hl'; injection Hl' as <-; discriminate|]);
  lia.

Lemma nothing_renders_without_layer_types_witness :
  exists emitted,
    calls (compositeDesignLayers [rect_layer; half_group]
             (Registry.resolveLayerType Registry.createPluginRegistry)
             fresh_ctx None)
    = calls fresh_ctx ++ CallDrawImage 0 0 :: emitted
    /\ render_args emitted = []
    /\ Forall (fun call => is_scope_call call = true) emitted.
Proof.
  apply (nothing_renders_without_layer_types [rect_layer; half_group]
           (Registry.resolveLayerType Registry.createPluginRegistry)
           fresh_ctx None).
  intros typeId. reflexivity.
Defined.

Lemma render_never_under_normal_operation_witness :
  toCompositeOp "multiply" = "multiply".
Proof.
  destruct (render_never_under_normal_operation sample_registry false
              half_group fresh_ctx) as (emitted & _ & _ & _ & Hother).
  apply Hother. discriminate.
Defined.

Lemma includeGuides_only_affects_guides_witness :
  compositeDesignLayers [rect_layer; half_group] shapes_only_registry
    fresh_ctx (Some (Some true))
  = compositeDesignLayers [rect_layer; half_group] shapes_only_registry
      fresh_ctx None.
Proof.
  apply (includeGuides_only_affects_guides [rect_layer; half_group]
           shapes_only_registry fresh_ctx (Some (Some true)) None).
  intros typeId lt. unfold shapes_only_registry.
  destruct (String.eqb typeId "shapes:rect");
    [intros [= <-]; discriminate|].
  destruct (String.eqb typeId "shapes:ellipse");
    [intros [= <-]; discriminate | discriminate 1].
Defined.

Lemma guide_leaf_needs_includeGuides_witness :
  compositeDesignLayers [grid_guide_layer] sample_registry fresh_ctx None
  = mkCtx (state fresh_ctx) (saved fresh_ctx) [CallDrawImage 0 0]
  /\ compositeDesignLayers [grid_guide_layer] sample_registry fresh_ctx
       (Some None)
     = mkCtx (state fresh_ctx) (saved fresh_ctx) [CallDrawImage 0 0]
  /\ compositeDesignLayers [grid_guide_layer] sample_registry fresh_ctx
       (Some (Some false))
     = mkCtx (state fresh_ctx) (saved fresh_ctx) [CallDrawImage 0 0]
  /\ rendered_types
       (calls (compositeDesignLayers [grid_guide_layer] sample_registry
                 fresh_ctx (Some (Some true))))
     = ["guides:grid"].
Proof.
  destruct (guide_leaf_needs_includeGuides sample_registry grid_guide_layer
              (mkLayerType "guides:grid" cat_guide) fresh_ctx
              eq_refl (or_introl eq_refl) eq_refl eq_refl)
    as (Habsent & Hempty & Hfalse & Htrue).
  split; [exact Habsent|]. split; [exact Hempty|]. split; [exact Hfalse|].
  rewrite Htrue. reflexivity.
Defined.

Lemma sample_rect_found : found_at "rect-1" (layers sample_stack) 1 rect_layer.
Proof. solve_found_at. Qed.

Lemma sample_group_found :
  found_at "group-1" (layers sample_stack) 0 half_group.
Proof. solve_found_at. Qed.

Lemma remove_deletes_first_match_witness :
  remove "group-1" sample_stack
  = (Returned true,
     mkStack [rect_layer] [layer_removed] 0)
  /\ get "group-1" (mkStack [rect_layer] [layer_removed] 0)
     = (Returned None, mkStack [rect_layer] [layer_removed] 0).
Proof.
  destruct (remove_deletes_first_match "group-1" sample_stack 0 half_group
              sample_group_found) as (Hrm & _ & _ & _ & Hget).
  split; [exact Hrm|]. apply Hget.
  intros j l' Hj Hl'.
  destruct j as [|[|j]]; [lia | injection Hl' as <-; discriminate
                         | discriminate Hl'].
Defined.

Lemma reorder_moves_layer_to_clamped_index_witness :
  (exists ls',
     reorder "group-1" 999 sample_stack
     = (Returned tt, mkStack ls' [layer_reordered] 0)
     /\ ls' !! 1%nat = Some half_group
     /\ ls' ≡ₚ layers sample_stack)
  /\ reorder "group-1" (-5) sample_stack = (Returned tt, sample_stack).
Proof.
  destruct (reorder_moves_layer_to_clamped_index "group-1" 999 sample_stack
              0 half_group sample_group_found) as (_ & _ & Hmove).
  destruct (reorder_moves_layer_to_clamped_index "group-1" (-5) sample_stack
              0 half_group sample_group_found) as (_ & Hstay & _).
  split.
  - destruct Hmove as (ls' & Hre & Hat & _ & Hperm & _); [discriminate|].
    exists ls'. repeat split; assumption.
  - apply Hstay. reflexivity.
Defined.

Lemma updateProperties_merges_defined_entries_witness :
  exists l',
    updateProperties "rect-1"
      {[ "fill" := None; "stroke" := Some (PString "#000");
         "__proto__" := Some (PString "x") ]} sample_stack
    = (Returned tt,
       mkStack (<[1%nat := l']> (layers sample_stack)) [layer_updated] 0)
    /\ properties l' !! "fill" = Some (PString "#ff0000")
    /\ properties l' !! "stroke" = Some (PString "#000")
    /\ properties l' !! "__proto__" = None.
Proof.
  destruct (updateProperties_merges_defined_entries "rect-1"
              {[ "fill" := None; "stroke" := Some (PString "#000");
                 "__proto__" := Some (PString "x") ]}
              sample_stack 1 rect_layer sample_rect_found)
    as (l' & Hup & _ & Hprops & _).
  exists l'. split; [exact Hup|].
  repeat split; rewrite Hprops; reflexivity.
Defined.

Lemma updates_preserve_stack_structure_witness :
  exists l',
    updateBlend "rect-1" (Some "screen") (Some (1 # 2)) sample_stack
    = (Returned tt,
       mkStack (<[1%nat := l']> (layers sample_stack)) [layer_updated] 0)
    /\ id l' = "rect-1" /\ children l' = None.
Proof.
  destruct (updates_preserve_stack_structure "rect-1" sample_stack 1
              rect_layer sample_rect_found
              (updateBlend "rect-1" (Some "screen") (Some (1 # 2))
                 sample_stack))
    as (l' & Hres & _ & _ & _ & _ & Hid & _ & _ & _ & _ & Hkids).
  - right. right. eexists. eexists. reflexivity.
  - exists l'. repeat split; assumption.
Defined.

Lemma empty_updates_still_notify_witness :
  updateBlend "rect-1" None None sample_stack
  = (Returned tt, mkStack (layers sample_stack) [layer_updated] 0)
  /\ updateProperties "rect-1" {[ "fill" := None ]} sample_stack
     = (Returned tt, mkStack (layers sample_stack) [layer_updated] 0).
Proof.
  destruct (empty_updates_still_notify "rect-1" sample_stack 1 rect_layer
              sample_rect_found) as (Hblend & _ & Hprops).
  split; [exact Hblend|]. apply Hprops.
  intros key v Hkey. apply lookup_singleton_Some in Hkey as [_ <-].
  reflexivity.
Defined.

Lemma add_then_get_and_remove_witness :
  exists st1,
    add grid_guide_layer (Some 1%Z) sample_stack = (Returned tt, st1)
    /\ get "guide-1" st1 = (Returned (Some grid_guide_layer), st1)
    /\ remove "guide-1" st1
       = (Returned true,
          mkStack (layers sample_stack) [layer_added; layer_removed] 0).
Proof.
  destruct (add_then_get_and_remove grid_guide_layer (Some 1%Z) sample_stack)
    as (st1 & Hadd & _ & Hget & Hrm).
  - apply (bool_decide_unpack _). vm_compute. exact I.
  - exists st1. repeat split; assumption.
Defined.

Lemma duplicate_composites_like_original_witness :
  exists clone st',
    duplicate zero_random "group-1" sample_stack = (Returned (id clone), st')
    /\ layers st' = [half_group; clone; rect_layer]
    /\ without_id_and_name clone = without_id_and_name half_group
    /\ compositeLayers sample_registry false (layers st') fresh_ctx
       = compositeLayers sample_registry false
           [half_group; half_group; rect_layer] fresh_ctx.
Proof.
  apply (duplicate_composites_like_original zero_random sample_registry false
           "group-1" sample_stack 0 half_group fresh_ctx sample_group_found).
Defined.

Lemma duplicate_returns_id_of_clone_witness :
  exists clone st',
    duplicate zero_random "group-1" sample_stack = (Returned (id clone), st')
    /\ id clone = zero_uuid
    /\ get zero_uuid st' = (Returned (Some clone), st').
Proof.
  destruct (duplicate_returns_id_of_clone zero_random "group-1" sample_stack
              0 half_group sample_group_found)
    as (clone & st' & Hdup & Hid & _ & Hget & _).
  - apply (bool_decide_unpack _). vm_compute. exact I.
  - assert (Hz : id clone = zero_uuid)
      by (rewrite Hid; vm_compute; reflexivity).
    exists clone, st'. split; [exact Hdup|]. split; [exact Hz|].
    rewrite <- Hz. exact Hget.
Defined.

Lemma cycling_random_in_range k :
  0 <= cycling_random k /\ cycling_random k < 1.
Proof.
  unfold cycling_random, Qle, Qlt. cbn [Qnum Qden].
  pose proof (Nat.mod_upper_bound k 16). lia.
Qed.

Lemma uuid_has_version4_shape_witness :
  fst (uuid cycling_random 0) = "01234567-89ab-4cde-b012-3456789abcde"
  /\ String.length (fst (uuid cycling_random 0)) = 36%nat
  /\ snd (uuid cycling_random 0) = 31%nat
  /\ (forall i c,
        String.get i (fst (uuid cycling_random 0)) = Some c ->
        i <> 8%nat -> i <> 13%nat -> i <> 18%nat -> i <> 23%nat ->
        c ∈ hex_digits).
Proof.
  destruct (uuid_has_version4_shape cycling_random 0 cycling_random_in_range)
    as (Hlen & Hcount & _ & _ & _ & _ & _ & _ & Hhex).
  split; [vm_compute; reflexivity|]. split; [exact Hlen|].
  split; [exact Hcount | exact Hhex].
Defined.

Lemma register_stores_plugin_witness :
  exists st',
    Registry.register guides_plugin shapes_registry = (Returned tt, st')
    /\ Registry.get "guides" st' = Some guides_plugin
    /\ Registry.getAll st' = [shapes_plugin; guides_plugin].
Proof.
  destruct (register_stores_plugin guides_plugin shapes_registry)
    as (st' & Hreg & Hget & Hall & _).
  - reflexivity.
  - intros deps dep [= <-] Hdep. apply list_elem_of_singleton in Hdep.
    subst dep. exists shapes_plugin. reflexivity.
  - reflexivity.
  - exists st'. repeat split; assumption.
Defined.

Lemma refused_registration_changes_nothing_witness :
  Registry.register shapes_plugin shapes_registry
  = (Thrown (Registry.already_registered_message "shapes"), shapes_registry)
  /\ Registry.register guides_plugin Registry.createPluginRegistry
     = (Thrown (Registry.missing_dependency_message "guides" "shapes"),
        Registry.createPluginRegistry).
Proof.
  destruct (refused_registration_changes_nothing shapes_plugin shapes_registry)
    as [Hdup _].
  destruct (refused_registration_changes_nothing guides_plugin
              Registry.createPluginRegistry) as [_ Hmiss].
  split.
  - apply Hdup. exists shapes_plugin. reflexivity.
  - apply (Hmiss [] "shapes" []); try reflexivity.
    intros d Hd. inversion Hd.
Defined.

Lemma registry_ids_stay_unique_witness :
  registry_consistent (snd (Registry.register guides_plugin shapes_registry))
  /\ registry_consistent (snd (Registry.unregister "shapes" shapes_registry)).
Proof.
  destruct registry_ids_stay_unique as [Hnew Hstep].
  assert (Hshapes : registry_consistent shapes_registry).
  { apply (Hstep Registry.createPluginRegistry Hnew). }
  destruct (Hstep shapes_registry Hshapes) as (Hreg & Hunreg & _).
  split; [apply Hreg | apply Hunreg].
Defined.

Lemma unregister_removes_only_that_plugin_witness :
  (exists st',
     Registry.unregister "shapes" shapes_registry = (Returned tt, st')
     /\ Registry.get "shapes" st' = None
     /\ Registry.lifecycle st' = [Initialize "shapes"; Dispose "shapes"])
  /\ Registry.unregister "guides" shapes_registry
     = (Thrown (Registry.not_registered_message "guides"), shapes_registry).
Proof.
  destruct (unregister_removes_only_that_plugin "shapes" shapes_registry)
    as [Hknown _].
  destruct (unregister_removes_only_that_plugin "guides" shapes_registry)
    as [_ Hunknown].
  split.
  - destruct (Hknown shapes_plugin eq_refl eq_refl)
      as (st' & Hun & Hget & _ & Hlife).
    exists st'. repeat split; assumption.
  - apply Hunknown. reflexivity.
Defined.

Lemma resolveLayerType_finds_first_offered_witness :
  typeId (mkLayerType "shapes:ellipse" cat_shape) = "shapes:ellipse"
  /\ mkLayerType "shapes:ellipse" cat_shape
     ∈ Registry.getLayerTypes shapes_registry.
Proof.
  destruct (resolveLayerType_finds_first_offered shapes_registry
              "shapes:ellipse") as (_ & Hsound & _).
  apply Hsound. reflexivity.
Defined.

Lemma registration_keeps_resolved_types_witness :
  Registry.resolveLayerType
    (snd (Registry.register guides_plugin shapes_registry)) "shapes:rect"
  = Some (mkLayerType "shapes:rect" cat_shape)
  /\ Registry.resolveLayerType
       (snd (Registry.register guides_plugin shapes_registry)) "guides:grid"
     = Some (mkLayerType "guides:grid" cat_guide).
Proof.
  split.
  - rewrite (registration_keeps_resolved_types guides_plugin shapes_registry
               (snd (Registry.register guides_plugin shapes_registry))
               "shapes:rect" eq_refl).
    reflexivity.
  - rewrite (registration_keeps_resolved_types guides_plugin shapes_registry
               (snd (Registry.register guides_plugin shapes_registry))
               "guides:grid" eq_refl).
    reflexivity.
Defined.
